(** * ExpenseOwl: the recurring-expense materialization engine

    A shallow embedding of [generateExpensesFromRecurring],
    [UpdateRecurringExpense] and [RemoveRecurringExpense] of
    [internal/storage] (the PostgreSQL store), with the part of Go's
    [time] package those functions call.

    Conventions of the embedding:
    - a [time.Time] is an instant, counted in nanoseconds since the Unix
      epoch, together with its [*Location]; a location is its [lookup]
      function, from an instant in seconds to the zone offset in effect and
      the bounds of the period it is in effect for, so that UTC, a fixed
      offset decoded from JSON and a local zone with daylight-saving
      transitions are all values of the type; [Date] and [AddDate] work on
      the wall clock of the location as package time does;
    - Go's [int] is [Z]: the only arithmetic on it is a decrement guarded by
      [> 0], which cannot wrap around, and instants stay far from the ends
      of [int64];
    - [float64] amounts are only copied, never computed on: they are carried
      as the [Z] of their IEEE-754 bit pattern;
    - [time.Now()] and [uuid.New()] are made explicit: every function that
      reads the clock takes the value read, and every function that draws
      identifiers takes the source [uuid : nat -> string] and the number of
      identifiers drawn so far;
    - a table is the list of its rows, a SQL statement is its relational
      meaning on that list, a transaction works on a copy of the tables
      that replaces the store only on commit; a stored date is the
      [time.Time] written, and the comparisons of the statements look at
      its instant only, as [TIMESTAMPTZ] does. *)

From Stdlib Require Import ZArith Lia Bool Sorted.
From stdpp Require Import base list strings gmap pretty.

Local Open Scope Z_scope.

(** ** Go's [time] package *)
Module GoTime.

Definition nsPerSecond : Z := 1000000000.
Definition secondsPerDay : Z := 86400.
Definition nsPerDay : Z := secondsPerDay * nsPerSecond.

(** [alpha] and [omega] of package time: the bounds of a zone period that
    has no beginning or no end. *)
Definition alpha : Z := - 2 ^ 63.
Definition omega : Z := 2 ^ 63 - 1.

(** A [*Location] by its method [lookup]: for an instant in seconds since
    the epoch, the offset in seconds east of UTC in effect at the instant
    and the instants at which that zone period starts and ends. *)
Record Location : Type := mkLocation { lookup : Z -> Z * Z * Z }.

Definition zoneOffset (loc : Location) (sec : Z) : Z := fst (fst (lookup loc sec)).

Definition UTC : Location := mkLocation (fun _ => (0, alpha, omega)).

(** [time.FixedZone(name, offset)]: what decoding a JSON time with a
    numeric offset yields when the offset is not one of the local zone. *)
Definition FixedZone (offset : Z) : Location :=
  mkLocation (fun _ => (offset, alpha, omega)).

(** A location of the time zone database: the offset in effect before its
    first transition and its transitions in ascending order, each the
    instant of the change and the offset from then on. [lookup] searches
    the transitions for the period the instant lies in. *)
Fixpoint lookupTx (offset start : Z) (tx : list (Z * Z)) (sec : Z) : Z * Z * Z :=
  match tx with
  | [] => (offset, start, omega)
  | (when, after) :: tx =>
      if sec <? when then (offset, start, when) else lookupTx after when tx sec
  end.

Definition zoneTable (offset : Z) (tx : list (Z * Z)) : Location :=
  mkLocation (lookupTx offset alpha tx).

Record Time : Type := mkTime { unixNano : Z; location : Location }.

Definition unixSec (t : Time) : Z := unixNano t / nsPerSecond.
Definition nsec (t : Time) : Z := unixNano t mod nsPerSecond.

Definition Before (t u : Time) : bool := unixNano t <? unixNano u.

Definition isLeap (year : Z) : bool :=
  (year mod 4 =? 0) && (negb (year mod 100 =? 0) || (year mod 400 =? 0)).

(** [daysBefore[m]] of package time: the days of a non-leap year before
    month [m+1] starts. *)
Definition daysBefore (m : Z) : Z :=
  match m with
  | 0 => 0 | 1 => 31 | 2 => 59 | 3 => 90 | 4 => 120 | 5 => 151 | 6 => 181
  | 7 => 212 | 8 => 243 | 9 => 273 | 10 => 304 | 11 => 334 | _ => 365
  end.

(** Days from 1970-01-01 to January 1 of [year]. *)
Definition daysSinceEpoch (year : Z) : Z :=
  let y := year - 1 in
  365 * y + y / 4 - y / 100 + y / 400 - 719162.

(** The day number of the date (year, month, day) as [Date] counts it: the
    month overflows into the year, the day is an offset and may lie
    outside the month. *)
Definition unixDays (year month day : Z) : Z :=
  let m := month - 1 in
  let year := year + m / 12 in
  let month := m mod 12 + 1 in
  daysSinceEpoch year + daysBefore (month - 1)
  + (if isLeap year && (3 <=? month) then 1 else 0)
  + (day - 1).

(** The instant, in seconds, [Date] gives a wall-clock reading in a
    location. [wall] is the reading counted in seconds as if it were
    UTC. The zone is looked up at [wall] itself; when the instant that
    zone gives does not lie in the period found, the zone is looked up
    again at that instant. *)
Definition fromWall (loc : Location) (wall : Z) : Z :=
  let '(offset, start, end_) := lookup loc wall in
  if offset =? 0 then wall
  else
    let utc := wall - offset in
    let offset :=
      if (utc <? start) || (end_ <=? utc) then zoneOffset loc utc else offset in
    wall - offset.

(** [time.Date]. The overflow of a field into the next one ([norm]) is
    the same sum of seconds; nanoseconds overflow into seconds. *)
Definition Date (year month day hour min sec nsec : Z) (loc : Location) : Time :=
  let sec := sec + nsec / nsPerSecond in
  let nsec := nsec mod nsPerSecond in
  let wall :=
    unixDays year month day * secondsPerDay + ((hour * 60 + min) * 60 + sec) in
  mkTime (fromWall loc wall * nsPerSecond + nsec) loc.

(** Year and zero-based day of the year of a day number. *)
Definition absDate (days : Z) : Z * Z :=
  let d := days + 719162 in
  let n400 := d / 146097 in
  let d := d - 146097 * n400 in
  let n100 := d / 36524 in
  let n100 := n100 - n100 / 4 in
  let d := d - 36524 * n100 in
  let n4 := d / 1461 in
  let d := d - 1461 * n4 in
  let n := d / 365 in
  let n := n - n / 4 in
  let d := d - 365 * n in
  (1 + 400 * n400 + 100 * n100 + 4 * n4 + n, d).

(** The date of a day number: year, month (1..12), day of the month. *)
Definition civil (days : Z) : Z * Z * Z :=
  let '(year, yday) := absDate days in
  let leap := isLeap year in
  if leap && (yday =? 31 + 29 - 1) then (year, 2, 29)
  else
    let day := if leap && (31 + 29 - 1 <? yday) then yday - 1 else yday in
    let month := day / 31 in
    let end_ := daysBefore (month + 1) in
    if end_ <=? day then (year, month + 2, day - end_ + 1)
    else (year, month + 1, day - daysBefore month + 1).

(** [t.abs()], from the Unix epoch: the wall clock of [t] in its own
    location, in seconds as if it were UTC. *)
Definition wallSec (t : Time) : Z :=
  unixSec t + zoneOffset (location t) (unixSec t).

Definition wallDay (t : Time) : Z := wallSec t / secondsPerDay.
Definition wallClock (t : Time) : Z := wallSec t mod secondsPerDay.

(** [t.Date()]: year, month and day in the location of [t]. *)
Definition civilDate (t : Time) : Z * Z * Z := civil (wallDay t).

(** [t.Clock()]: hour, minute and second in the location of [t]. *)
Definition Clock (t : Time) : Z * Z * Z :=
  let s := wallClock t in (s / 3600, s mod 3600 / 60, s mod 60).

Definition AddDate (years months days : Z) (t : Time) : Time :=
  let '(year, month, day) := civilDate t in
  let '(hour, min, sec) := Clock t in
  Date (year + years) (month + months) (day + days) hour min sec (nsec t)
    (location t).

(** The wall-clock reading [AddDate] hands to [Date]: the date of [t] in
    its location moved by the years, months and days, at the time of day
    of [t], in seconds as if it were UTC. *)
Definition wallAfter (years months days : Z) (t : Time) : Z :=
  let '(year, month, day) := civilDate t in
  unixDays (year + years) (month + months) (day + days) * secondsPerDay
  + wallClock t.

(** Length of a month, and the month after a month. *)
Definition daysIn (year month : Z) : Z :=
  if (month =? 2) && isLeap year then 29
  else daysBefore month - daysBefore (month - 1).

Definition validDate (year month day : Z) : Prop :=
  1 <= month <= 12 /\ 1 <= day <= daysIn year month.

(** The zero-based day of the year of a date. *)
Definition yearDay (year month day : Z) : Z :=
  daysBefore (month - 1) + (if isLeap year && (3 <=? month) then 1 else 0)
  + (day - 1).

Definition nextMonth (year month : Z) : Z * Z :=
  if month =? 12 then (year + 1, 1) else (year, month + 1).

(** The civil date [Date] normalizes (year, month, day) to, when the day
    is at most 31 and the month is 1..12: the date itself when the month
    has that day, otherwise the overflow carried into the next month. *)
Definition rollForward (year month day : Z) : Z * Z * Z :=
  if day <=? daysIn year month then (year, month, day)
  else let '(y, m) := nextMonth year month in
       (y, m, day - daysIn year month).

(** The wall-clock reading [wall] is read in one zone: the zone found at
    [wall] is also the zone in effect at the instant it gives. It is so
    for every reading in a location of one offset, and in a location with
    transitions for every reading further from a transition than the
    offset. *)
Definition oneZone (loc : Location) (wall : Z) : Prop :=
  zoneOffset loc (wall - zoneOffset loc wall) = zoneOffset loc wall.

(** The zone in effect at [t] stays in effect for the [days] days after
    [t]; the window is widened by the offset, [Date] looking the reading
    up as if it were UTC. *)
Definition steadyZone (t : Time) (days : Z) : Prop :=
  let o := zoneOffset (location t) (unixSec t) in
  forall s,
    unixSec t + Z.min 0 o <= s <= unixSec t + days * secondsPerDay + Z.max 0 o ->
    zoneOffset (location t) s = o.

(** The offsets of the location lie within 23 hours of each other: then
    a step of a day or more on the wall clock moves the instant at least
    an hour forward. A location that crossed the date line (a whole
    day of the wall clock skipped) is not of this kind. *)
Definition forwardLocation (loc : Location) : Prop :=
  exists lo, forall s, lo <= zoneOffset loc s <= lo + 82800.

End GoTime.

Import GoTime.

(** ** The rows of the two tables *)

(** Modelled from the spec: the struct [RecurringExpense] of
    [internal/storage], whose declaration is not among the sources. The
    fields are the ones the functions below read and the columns of
    [recurring_expenses], typed as the data model of the specification
    types a rule. It stands for the struct and for a row of the table. *)
Module RecurringExpense.
Record t : Type := mk {
  ID : string;
  Name : string;
  Amount : Z;
  Currency : string;
  Category : string;
  StartDate : Time;
  Interval : string;
  Occurrences : Z;
  Tags : list string
}.
End RecurringExpense.

(** Modelled from the spec: the struct [Expense] of [internal/storage],
    whose declaration is not among the sources. The fields are the ones
    [generateExpensesFromRecurring] fills and the columns of [expenses]. It
    stands for the struct and for a row of the table; [RecurringID] is the
    empty string on an expense entered by hand. *)
Module Expense.
Record t : Type := mk {
  ID : string;
  RecurringID : string;
  Name : string;
  Category : string;
  SubCategory : string;
  Amount : Z;
  Currency : string;
  Date : Time;
  Tags : list string
}.
End Expense.

(** ** [generateExpensesFromRecurring] *)
Module Expander.

(** The [switch recExp.Interval] both loops share: [None] is the
    [default:] branch, which returns from the function. *)
Definition step (interval : string) (currentDate : Time) : option Time :=
  if String.eqb interval "daily" then Some (AddDate 0 0 1 currentDate)
  else if String.eqb interval "weekly" then Some (AddDate 0 0 7 currentDate)
  else if String.eqb interval "monthly" then Some (AddDate 0 1 0 currentDate)
  else if String.eqb interval "yearly" then Some (AddDate 1 0 0 currentDate)
  else None.

Definition validInterval (interval : string) : bool :=
  String.eqb interval "daily" || String.eqb interval "weekly"
  || String.eqb interval "monthly" || String.eqb interval "yearly".

(** The unit of the fuel of the [fromToday] loop. *)
Definition nsPerHour : Z := 3600 * nsPerSecond.

(** How the [fromToday] loop ends: its condition turned false
    ([ffDone], with the cursor and the budget left), the [default:]
    branch returned ([ffInvalid]), or the fuel of the embedding ran out
    ([ffOutOfFuel]). [fastForward_fuel] below excludes the last on
    [ffFuel] when the budget is bounded, the interval invalid or the
    start date in a [forwardLocation]; elsewhere the loop of the source
    need not end, and [ffRun] is its meaning. *)
Inductive ffOutcome : Type :=
| ffDone (currentDate : Time) (occurrencesToGenerate : Z)
| ffInvalid (currentDate : Time) (occurrencesToGenerate : Z)
| ffOutOfFuel.

Section Loops.
Variable today : Time.
Variable recExp : RecurringExpense.t.

Definition ffCond (currentDate : Time) (occurrencesToGenerate : Z) : bool :=
  Before currentDate today
  && ((RecurringExpense.Occurrences recExp =? 0) || (0 <? occurrencesToGenerate)).

Definition ffBudget (occurrencesToGenerate : Z) : Z :=
  if 0 <? RecurringExpense.Occurrences recExp
  then occurrencesToGenerate - 1 else occurrencesToGenerate.

Fixpoint fastForward (fuel : nat) (currentDate : Time)
    (occurrencesToGenerate : Z) : ffOutcome :=
  match fuel with
  | O => ffOutOfFuel
  | S fuel =>
      if ffCond currentDate occurrencesToGenerate then
        match step (RecurringExpense.Interval recExp) currentDate with
        | None => ffInvalid currentDate occurrencesToGenerate
        | Some next => fastForward fuel next (ffBudget occurrencesToGenerate)
        end
      else ffDone currentDate occurrencesToGenerate
  end.

(** The state (cursor, budget left) after each advancement step of the
    same loop, in order. *)
Fixpoint ffSteps (fuel : nat) (currentDate : Time)
    (occurrencesToGenerate : Z) : list (Time * Z) :=
  match fuel with
  | O => []
  | S fuel =>
      if ffCond currentDate occurrencesToGenerate then
        match step (RecurringExpense.Interval recExp) currentDate with
        | None => []
        | Some next =>
            (next, ffBudget occurrencesToGenerate)
              :: ffSteps fuel next (ffBudget occurrencesToGenerate)
        end
      else []
  end.

(** The fuel of a call. A bounded budget ends the loop after at most
    that many steps, wherever they land; on an unbounded one the loop
    runs while the cursor is before today, and every step moves the
    cursor at least an hour forward when the start date is in a
    [forwardLocation]. *)
Definition ffFuel : nat :=
  S (Z.to_nat
       (Z.max (RecurringExpense.Occurrences recExp)
          ((unixNano today - unixNano (RecurringExpense.StartDate recExp))
             / nsPerHour + 1))).

End Loops.

(** The [fromToday] loop as the source writes it, one rule per way
    through its body: an outcome is related to a start exactly when the
    loop ends in it. [fastForward] computes the relation wherever
    [ffFuel] is proved to be enough. *)
Inductive ffRun (today : Time) (recExp : RecurringExpense.t)
  : Time -> Z -> ffOutcome -> Prop :=
| ffRun_exit c o :
    ffCond today recExp c o = false -> ffRun today recExp c o (ffDone c o)
| ffRun_invalid c o :
    ffCond today recExp c o = true ->
    step (RecurringExpense.Interval recExp) c = None ->
    ffRun today recExp c o (ffInvalid c o)
| ffRun_step c o next out :
    ffCond today recExp c o = true ->
    step (RecurringExpense.Interval recExp) c = Some next ->
    ffRun today recExp next (ffBudget recExp o) out ->
    ffRun today recExp c o out.

(** The fuel a cursor needs when every step moves it an hour forward: one
    test of the condition per hour left before today, and the test that
    ends the loop. *)
Definition ffNeed (today c : Time) : Z :=
  if Before c today then (unixNano today - unixNano c) / nsPerHour + 2 else 1.

(** The states (cursor, budget left) of the [fromToday] loop of a call:
    the one it starts in, then the one after each step. *)
Definition ffStates (today : Time) (recExp : RecurringExpense.t) : list (Time * Z) :=
  (RecurringExpense.StartDate recExp, RecurringExpense.Occurrences recExp)
    :: ffSteps today recExp (ffFuel today recExp)
         (RecurringExpense.StartDate recExp) (RecurringExpense.Occurrences recExp).

(** A step from state [s] to state [s'] that takes a unit of the budget
    exactly when the cursor it lands on is before today. *)
Definition consumesOnLanding (today : Time) (s s' : Time * Z) : Prop :=
  snd s' = if Before (fst s') today then snd s - 1 else snd s.

Definition newExpense (id : string) (recExp : RecurringExpense.t)
    (currentDate : Time) : Expense.t :=
  {| Expense.ID := id;
     Expense.RecurringID := RecurringExpense.ID recExp;
     Expense.Name := RecurringExpense.Name recExp;
     Expense.Category := RecurringExpense.Category recExp;
     Expense.SubCategory := "";
     Expense.Amount := RecurringExpense.Amount recExp;
     Expense.Currency := RecurringExpense.Currency recExp;
     Expense.Date := currentDate;
     Expense.Tags := RecurringExpense.Tags recExp |}.

Section Generate.
Variable uuid : nat -> string.
Variable recExp : RecurringExpense.t.

(** [for range limit { ... }], with [drawn] identifiers drawn before. *)
Fixpoint generate (limit : nat) (drawn : nat) (currentDate : Time)
    : list Expense.t :=
  match limit with
  | O => []
  | S limit =>
      let expense := newExpense (uuid drawn) recExp currentDate in
      match step (RecurringExpense.Interval recExp) currentDate with
      | None => [expense]
      | Some next => expense :: generate limit (S drawn) next
      end
  end.

(** The function, its [fromToday] loop run on [ffFuel]. Where that fuel
    is not enough ([ffOutOfFuel], which [fastForward_fuel] excludes for a
    bounded budget, an invalid interval and a start date in a
    [forwardLocation]) the loop of the source has not ended and the
    function has no value to model; the empty list stands there. *)
Definition generateExpensesFromRecurring (drawn : nat) (today : Time)
    (fromToday : bool) : list Expense.t :=
  let currentDate := RecurringExpense.StartDate recExp in
  let occurrencesToGenerate := RecurringExpense.Occurrences recExp in
  if fromToday then
    match fastForward today recExp (ffFuel today recExp)
            currentDate occurrencesToGenerate with
    | ffDone currentDate occurrencesToGenerate =>
        generate (Z.to_nat occurrencesToGenerate) drawn currentDate
    | ffInvalid _ _ => []
    | ffOutOfFuel => []
    end
  else generate (Z.to_nat occurrencesToGenerate) drawn currentDate.

(** The units of the budget the [fromToday] loop of the same call took:
    the starting budget less the budget left when the loop ends. *)
Definition consumed (today : Time) (fromToday : bool) : Z :=
  if fromToday then
    match fastForward today recExp (ffFuel today recExp)
            (RecurringExpense.StartDate recExp)
            (RecurringExpense.Occurrences recExp) with
    | ffDone _ rest | ffInvalid _ rest =>
        RecurringExpense.Occurrences recExp - rest
    | ffOutOfFuel => 0
    end
  else 0.

End Generate.

End Expander.

(** ** The store *)
Module Store.
Import Expander.

Record databaseStore : Type := mkStore {
  recurring_expenses : list RecurringExpense.t;
  expenses : list Expense.t;
  defaults : gmap string string
}.

Inductive StoreError : Type :=
| ErrNotFoundToUpdate (id : string)
| ErrNotFound (id : string)
| ErrInsertRule
| ErrCopyIn.

(** [s.defaults["currency"]]: the empty string when the key is absent. *)
Definition defaultCurrency (s : databaseStore) : string :=
  default "" (defaults s !! "currency").

(** [DELETE FROM expenses WHERE recurring_id = $1], with
    [AND date > $2] unless [all]. *)
Definition deleted (id : string) (all : bool) (now : Time) (e : Expense.t) : Prop :=
  Expense.RecurringID e = id /\ (all = true \/ unixNano now < unixNano (Expense.Date e)).

Definition deleteInstances (id : string) (all : bool) (now : Time)
    (rows : list Expense.t) : list Expense.t :=
  filter (fun e => ~ deleted id all now e) rows.

(** [COPY expenses FROM STDIN]: the rows are appended in order; [id] is
    the primary key, so a row whose id is already there fails the copy. *)
Fixpoint copyIn (table rows : list Expense.t) : option (list Expense.t) :=
  match rows with
  | [] => Some table
  | e :: rows =>
      if decide (Expense.ID e ∈ Expense.ID <$> table) then None
      else copyIn (table ++ [e]) rows
  end.

(** The rule as [AddRecurringExpense] and [UpdateRecurringExpense] store
    it: the id set, an empty currency replaced by the default. *)
Definition withDefaults (s : databaseStore) (id : string)
    (recurringExpense : RecurringExpense.t) : RecurringExpense.t :=
  {| RecurringExpense.ID := id;
     RecurringExpense.Name := RecurringExpense.Name recurringExpense;
     RecurringExpense.Amount := RecurringExpense.Amount recurringExpense;
     RecurringExpense.Currency :=
       if String.eqb (RecurringExpense.Currency recurringExpense) ""
       then defaultCurrency s
       else RecurringExpense.Currency recurringExpense;
     RecurringExpense.Category := RecurringExpense.Category recurringExpense;
     RecurringExpense.StartDate := RecurringExpense.StartDate recurringExpense;
     RecurringExpense.Interval := RecurringExpense.Interval recurringExpense;
     RecurringExpense.Occurrences := RecurringExpense.Occurrences recurringExpense;
     RecurringExpense.Tags := RecurringExpense.Tags recurringExpense |}.

(** The instances of rule [id] dated after [now]. *)
Definition futureOf (id : string) (now : Time) (rows : list Expense.t)
    : list Expense.t :=
  filter (fun e => Expense.RecurringID e = id
                   /\ unixNano now < unixNano (Expense.Date e)) rows.

Definition rowsWithID (id : string) (rows : list RecurringExpense.t)
    : list RecurringExpense.t :=
  filter (fun r => RecurringExpense.ID r = id) rows.

Section Operations.
Variable uuid : nat -> string.

(** [drawn] counts the identifiers drawn from [uuid] before the call;
    [today] is the clock [generateExpensesFromRecurring] reads. *)
Definition AddRecurringExpense (drawn : nat) (today : Time)
    (s : databaseStore) (recurringExpense : RecurringExpense.t)
    : option StoreError * databaseStore :=
  let '(id, drawn) :=
    if String.eqb (RecurringExpense.ID recurringExpense) ""
    then (uuid drawn, S drawn)
    else (RecurringExpense.ID recurringExpense, drawn) in
  let recurringExpense := withDefaults s id recurringExpense in
  if decide (rowsWithID id (recurring_expenses s) = []) then
    let expensesToAdd :=
      generateExpensesFromRecurring uuid recurringExpense drawn today false in
    match copyIn (expenses s) expensesToAdd with
    | None => (Some ErrCopyIn, s)
    | Some rows =>
        (None, {| recurring_expenses := recurring_expenses s ++ [recurringExpense];
                  expenses := rows;
                  defaults := defaults s |})
    end
  else (Some ErrInsertRule, s).

(** [now] is the clock the function reads for its [DELETE], [today]
    the one [generateExpensesFromRecurring] reads after it. *)
Definition UpdateRecurringExpense (drawn : nat) (now today : Time)
    (s : databaseStore) (id : string)
    (recurringExpense : RecurringExpense.t) (updateAll : bool)
    : option StoreError * databaseStore :=
  let recurringExpense := withDefaults s id recurringExpense in
  let rowsAffected := length (rowsWithID id (recurring_expenses s)) in
  if (rowsAffected =? 0)%nat then (Some (ErrNotFoundToUpdate id), s)
  else
    let rules :=
      (fun r => if decide (RecurringExpense.ID r = id)
                then recurringExpense else r) <$> recurring_expenses s in
    let kept := deleteInstances id updateAll now (expenses s) in
    let expensesToAdd :=
      generateExpensesFromRecurring uuid recurringExpense drawn today
        (negb updateAll) in
    match copyIn kept expensesToAdd with
    | None => (Some ErrCopyIn, s)
    | Some rows =>
        (None, {| recurring_expenses := rules;
                  expenses := rows;
                  defaults := defaults s |})
    end.

Definition RemoveRecurringExpense (now : Time) (s : databaseStore)
    (id : string) (removeAll : bool) : option StoreError * databaseStore :=
  let rowsAffected := length (rowsWithID id (recurring_expenses s)) in
  if (rowsAffected =? 0)%nat then (Some (ErrNotFound id), s)
  else
    (None, {| recurring_expenses :=
                filter (fun r => RecurringExpense.ID r <> id) (recurring_expenses s);
              expenses := deleteInstances id removeAll now (expenses s);
              defaults := defaults s |}).

End Operations.

End Store.

(** ** Sample rules and stores *)
Module Samples.
Import Expander Store.

Definition uuid0 (n : nat) : string := "e" +:+ pretty n.

Definition ruleFrom (startDate : Time) (interval : string) (occurrences : Z)
    : RecurringExpense.t :=
  {| RecurringExpense.ID := "r1";
     RecurringExpense.Name := "rent";
     RecurringExpense.Amount := 4636737291354636288;
     RecurringExpense.Currency := "";
     RecurringExpense.Category := "home";
     RecurringExpense.StartDate := startDate;
     RecurringExpense.Interval := interval;
     RecurringExpense.Occurrences := occurrences;
     RecurringExpense.Tags := ["fixed"] |}.

(** The sample rule, starting on 2026-01-01 at midnight, UTC. *)
Definition rule (interval : string) (occurrences : Z) : RecurringExpense.t :=
  ruleFrom (Date 2026 1 1 0 0 0 0 UTC) interval occurrences.

Definition manual : Expense.t :=
  {| Expense.ID := "m1";
     Expense.RecurringID := "";
     Expense.Name := "coffee";
     Expense.Category := "food";
     Expense.SubCategory := "";
     Expense.Amount := 4613937818241073152;
     Expense.Currency := "USD";
     Expense.Date := Date 2026 1 2 9 30 0 0 UTC;
     Expense.Tags := [] |}.

Definition store0 : databaseStore :=
  {| recurring_expenses := [];
     expenses := [manual];
     defaults := {["currency" := "USD"]} |}.

(** The store after the daily rule with three occurrences was added on
    2025-12-31: the rule row and its instances of January 1, 2 and 3. *)
Definition store1 : databaseStore :=
  snd (AddRecurringExpense uuid0 0 (Date 2025 12 31 8 0 0 0 UTC) store0 (rule "daily" 3)).

Definition noon : Time := Date 2026 1 1 12 0 0 0 UTC.
Definition cutover : Time := Date 2026 1 3 0 0 0 0 UTC.

End Samples.

(** ** Sample locations and dates in them

    A decoded JSON time is in UTC when its offset is zero, in
    [time.Local] when its offset is the one of the machine's zone at that
    instant, and in a [FixedZone] otherwise: the tables below are what
    [time.Local] is on a machine set to the zone. Each table holds the
    transitions around the dates used here; before the first and after
    the last of them the offset next to it stands. *)
Module Zones.
Import Expander Samples.

(** Japan Standard Time, as a JSON time with the offset [+09:00] decodes. *)
Definition Tokyo : Location := FixedZone 32400.

(** America/New_York from 2025 to 2027: daylight time (UTC-4), standard
    time (UTC-5) from 2025-11-02 06:00 UTC, daylight time from 2026-03-08
    07:00 UTC, standard time from 2026-11-01 06:00 UTC, daylight time
    from 2027-03-14 07:00 UTC. *)
Definition NewYork : Location :=
  zoneTable (-14400)
    [(1762063200, -18000); (1772953200, -14400);
     (1793512800, -18000); (1805007600, -14400)].

(** America/Havana in 2026: standard time (UTC-5), daylight time (UTC-4)
    from 2026-03-08 05:00 UTC, which is midnight on the wall clock, and
    standard time from 2026-11-01 05:00 UTC. *)
Definition Havana : Location :=
  zoneTable (-18000) [(1772946000, -14400); (1793509200, -18000)].

(** Pacific/Apia around its change of side of the date line: UTC-10 until
    2011-12-30 10:00 UTC, UTC+14 from then to 2012-03-31 14:00 UTC, UTC+13
    after; the wall clock goes from the end of December 29 to the start of
    December 31. *)
Definition Apia : Location :=
  zoneTable (-36000) [(1325239200, 50400); (1333202400, 46800)].

(** 2026-03-01 00:30 in Tokyo, 2026-03-07 12:00 in New York, 2026-03-07
    00:30 in Havana and 2011-12-29 09:00 in Apia. *)
Definition tokyoNight : Time := Date 2026 3 1 0 30 0 0 Tokyo.
Definition newYorkNoon : Time := Date 2026 3 7 12 0 0 0 NewYork.
Definition havanaNight : Time := Date 2026 3 7 0 30 0 0 Havana.
Definition apiaMorning : Time := Date 2011 12 29 9 0 0 0 Apia.

End Zones.

Import Expander Store Samples Zones.

(** ** Tactics *)

(** Case analysis on the comparisons of the goal. *)
Ltac eqb_cases :=
  repeat match goal with
  | |- context [Z.eqb ?a ?b] => destruct (Z.eqb_spec a b)
  | |- context [Z.leb ?a ?b] => destruct (Z.leb_spec a b)
  | |- context [Z.ltb ?a ?b] => destruct (Z.ltb_spec a b)
  end.

(** Evaluation of table lookups and comparisons on closed arguments. *)
Ltac calc_tables :=
  repeat match goal with
  | |- context [daysBefore ?a] =>
      let v := eval vm_compute in (daysBefore a) in
      progress change (daysBefore a) with v
  | |- context [Z.leb ?a ?b] =>
      let v := eval vm_compute in (Z.leb a b) in
      match v with true => idtac | false => idtac end;
      change (Z.leb a b) with v
  | |- context [Z.eqb ?a ?b] =>
      let v := eval vm_compute in (Z.eqb a b) in
      match v with true => idtac | false => idtac end;
      change (Z.eqb a b) with v
  end.

(** One case per month of a month known to be in 1..12. *)
Ltac by_month m H :=
  let C := fresh "C" in
  assert (m = 1 \/ m = 2 \/ m = 3 \/ m = 4 \/ m = 5 \/ m = 6 \/ m = 7
          \/ m = 8 \/ m = 9 \/ m = 10 \/ m = 11 \/ m = 12) as C by lia;
  repeat destruct C as [->|C]; try subst m.

(** ** Checks of the calendar against the documentation of package time *)

Example civil_epoch : civil 0 = (1970, 1, 1).
Proof. by vm_compute. Qed.

Example civil_2026 : civilDate (Date 2026 1 1 0 0 0 0 UTC) = (2026, 1, 1).
Proof. by vm_compute. Qed.

Example addmonth_oct31 :
  civilDate (AddDate 0 1 0 (Date 2011 10 31 0 0 0 0 UTC)) = (2011, 12, 1).
Proof. by vm_compute. Qed.

Example adddate_doc :
  civilDate (AddDate (-1) 2 3 (Date 2011 1 1 0 0 0 0 UTC)) = (2010, 3, 4).
Proof. by vm_compute. Qed.

(** A monthly rule from January 31: February has no 31st, the second
    instance is carried to March 3 and the third follows from there. *)
Example monthly_from_jan31 :
  (fun e => civilDate (Expense.Date e))
    <$> generateExpensesFromRecurring uuid0
          (ruleFrom (Date 2026 1 31 0 0 0 0 UTC) "monthly" 3) 0 noon false
  = [(2026, 1, 31); (2026, 3, 3); (2026, 4, 3)].
Proof. by vm_compute. Qed.

(** A yearly rule from February 29: the next year has none, the instance
    is March 1. *)
Example yearly_from_feb29 :
  (fun e => civilDate (Expense.Date e))
    <$> generateExpensesFromRecurring uuid0
          (ruleFrom (Date 2024 2 29 0 0 0 0 UTC) "yearly" 2) 0 noon false
  = [(2024, 2, 29); (2025, 3, 1)].
Proof. by vm_compute. Qed.

(** ** Checks of the step in locations with an offset *)

(** A month after 2026-03-01 00:30 +09:00 is 2026-04-01 00:30 +09:00, which
    is 2026-03-31 15:30 UTC. *)
Example monthly_in_tokyo :
  unixNano tokyoNight = 1772292600 * nsPerSecond
  /\ unixNano <$> step "monthly" tokyoNight = Some (1774971000 * nsPerSecond)
  /\ civilDate <$> step "monthly" tokyoNight = Some (2026, 4, 1)
  /\ Clock <$> step "monthly" tokyoNight = Some (0, 30, 0).
Proof. by vm_compute. Qed.

(** A day after 2026-03-07 12:00 -05:00 in New York is 2026-03-08 12:00
    -04:00, 23 hours later: daylight time starts in between. *)
Example daily_in_newYork :
  unixNano newYorkNoon = 1772902800 * nsPerSecond
  /\ unixNano <$> step "daily" newYorkNoon = Some (1772985600 * nsPerSecond)
  /\ civilDate <$> step "daily" newYorkNoon = Some (2026, 3, 8)
  /\ Clock <$> step "daily" newYorkNoon = Some (12, 0, 0).
Proof. by vm_compute. Qed.

(** A day after 2026-03-07 02:30 in New York would be 02:30 on the day the
    clock goes from 02:00 to 03:00: [Date] gives 01:30 of that day. *)
Example daily_in_newYork_gap :
  civilDate <$> step "daily" (Date 2026 3 7 2 30 0 0 NewYork) = Some (2026, 3, 8)
  /\ Clock <$> step "daily" (Date 2026 3 7 2 30 0 0 NewYork) = Some (1, 30, 0).
Proof. by vm_compute. Qed.

(** ** The calendar *)

Lemma absDate_spec n :
  daysSinceEpoch (fst (absDate n)) + snd (absDate n) = n /\
  0 <= snd (absDate n) < 365 + (if isLeap (fst (absDate n)) then 1 else 0).
Proof.
  unfold absDate, daysSinceEpoch, isLeap. cbn [fst snd].
  eqb_cases; cbn [andb orb negb].
  all: Z.div_mod_to_equations; lia.
Qed.

Lemma month_estimate day :
  0 <= day < 365 ->
  exists q, day / 31 = q /\ 31 * q <= day < 31 * q + 31 /\
    (q = 0 \/ q = 1 \/ q = 2 \/ q = 3 \/ q = 4 \/ q = 5 \/ q = 6 \/ q = 7
     \/ q = 8 \/ q = 9 \/ q = 10 \/ q = 11).
Proof.
  intros H. exists (day / 31). Z.div_mod_to_equations. lia.
Qed.

Lemma unixDays_month y m d :
  1 <= m <= 12 ->
  unixDays y m d =
  daysSinceEpoch y + daysBefore (m - 1)
  + (if isLeap y && (3 <=? m) then 1 else 0) + (d - 1).
Proof.
  intros H. unfold unixDays.
  assert ((m - 1) / 12 = 0) as -> by (Z.div_mod_to_equations; lia).
  assert ((m - 1) mod 12 = m - 1) as -> by (Z.div_mod_to_equations; lia).
  rewrite Z.add_0_r. replace (m - 1 + 1) with m by lia. reflexivity.
Qed.

Lemma civil_spec n :
  let '(y, m, d) := civil n in unixDays y m d = n /\ validDate y m d.
Proof.
  unfold civil. pose proof (absDate_spec n) as [H1 H2].
  destruct (absDate n) as [y yd]. cbn [fst snd] in *.
  unfold validDate, daysIn.
  destruct (isLeap y) eqn:L; cbn [andb].
  - destruct (Z.eqb_spec yd (31 + 29 - 1)) as [->|Hne].
    + rewrite unixDays_month by lia. rewrite L. calc_tables. cbn [andb]. lia.
    + destruct (Z.ltb_spec (31 + 29 - 1) yd) as [Hlt|Hge].
      * destruct (month_estimate (yd - 1)) as (q & -> & Hq & Hc); [lia|].
        repeat destruct Hc as [->|Hc]; try subst q; calc_tables;
        eqb_cases; try lia; rewrite unixDays_month by lia; rewrite ?L; calc_tables; cbn [andb]; lia.
      * destruct (month_estimate yd) as (q & -> & Hq & Hc); [lia|].
        repeat destruct Hc as [->|Hc]; try subst q; calc_tables;
        eqb_cases; try lia; rewrite unixDays_month by lia; rewrite ?L; calc_tables; cbn [andb]; lia.
  - destruct (month_estimate yd) as (q & -> & Hq & Hc); [lia|].
    repeat destruct Hc as [->|Hc]; try subst q; calc_tables;
    eqb_cases; try lia; rewrite unixDays_month by lia; rewrite ?L; calc_tables; cbn [andb]; lia.
Qed.

Lemma daysSinceEpoch_succ y :
  daysSinceEpoch (y + 1) = daysSinceEpoch y + 365 + (if isLeap y then 1 else 0).
Proof.
  unfold daysSinceEpoch, isLeap. replace (y + 1 - 1) with y by lia.
  eqb_cases; cbn [andb orb negb]; Z.div_mod_to_equations; lia.
Qed.

Lemma daysSinceEpoch_mono y y' :
  y <= y' -> daysSinceEpoch y <= daysSinceEpoch y'.
Proof.
  unfold daysSinceEpoch. intros H. Z.div_mod_to_equations. lia.
Qed.

Lemma yearDay_range y m d :
  validDate y m d -> 0 <= yearDay y m d < 365 + (if isLeap y then 1 else 0).
Proof.
  unfold validDate, daysIn, yearDay. intros [Hm Hd]. revert Hd.
  destruct (isLeap y); by_month m Hm; calc_tables; cbn [andb]; lia.
Qed.

Lemma yearDay_inj y m d m' d' :
  validDate y m d -> validDate y m' d' ->
  yearDay y m d = yearDay y m' d' -> m = m' /\ d = d'.
Proof.
  unfold validDate, daysIn, yearDay. intros [Hm Hd] [Hm' Hd'].
  revert Hd Hd'.
  destruct (isLeap y); by_month m Hm; by_month m' Hm';
    calc_tables; cbn [andb]; lia.
Qed.

Lemma unixDays_inj y m d y' m' d' :
  validDate y m d -> validDate y' m' d' ->
  unixDays y m d = unixDays y' m' d' -> (y, m, d) = (y', m', d').
Proof.
  intros V V' E.
  rewrite !unixDays_month in E by apply V || apply V'.
  pose proof (yearDay_range _ _ _ V) as R.
  pose proof (yearDay_range _ _ _ V') as R'.
  unfold yearDay in *.
  assert (y = y') as <-.
  { destruct (Z.lt_trichotomy y y') as [Hlt|[Heq|Hgt]]; [exfalso|done|exfalso].
    - pose proof (daysSinceEpoch_mono (y + 1) y' ltac:(lia)).
      rewrite daysSinceEpoch_succ in *. lia.
    - pose proof (daysSinceEpoch_mono (y' + 1) y ltac:(lia)).
      rewrite daysSinceEpoch_succ in *. lia. }
  destruct (yearDay_inj y m d m' d' V V') as [-> ->]; [unfold yearDay; lia|done].
Qed.

Lemma civil_unixDays y m d :
  validDate y m d -> civil (unixDays y m d) = (y, m, d).
Proof.
  intros V. pose proof (civil_spec (unixDays y m d)) as S.
  destruct (civil (unixDays y m d)) as [[y' m'] d']. destruct S as [E V'].
  apply unixDays_inj; done.
Qed.

Lemma unixDays_day y m d k : unixDays y m (d + k) = unixDays y m d + k.
Proof. unfold unixDays. lia. Qed.

Lemma nextMonth_valid y m : 1 <= m <= 12 ->
  1 <= snd (nextMonth y m) <= 12.
Proof. unfold nextMonth. intros H. destruct (Z.eqb_spec m 12); cbn; lia. Qed.

Lemma unixDays_nextMonth y m d :
  1 <= m <= 12 ->
  unixDays y (m + 1) d = unixDays (fst (nextMonth y m)) (snd (nextMonth y m)) d.
Proof.
  intros H. unfold nextMonth. destruct (Z.eqb_spec m 12) as [->|Hne]; cbn [fst snd].
  - rewrite (unixDays_month (y + 1) 1) by lia. unfold unixDays.
    change ((12 + 1 - 1) / 12) with 1. change ((12 + 1 - 1) mod 12) with 0.
    by calc_tables.
  - reflexivity.
Qed.

Lemma daysIn_range y m : 1 <= m <= 12 -> 28 <= daysIn y m <= 31.
Proof.
  intros H. unfold daysIn. destruct (isLeap y); by_month m H; calc_tables; cbn [andb]; lia.
Qed.

(** A day past the end of a month is the same day number as the overflow
    counted in the next month. *)
Lemma unixDays_overflow y m d :
  1 <= m <= 12 ->
  unixDays y m d
  = unixDays (fst (nextMonth y m)) (snd (nextMonth y m)) (d - daysIn y m).
Proof.
  intros H. pose proof (nextMonth_valid y m H) as H'.
  rewrite !unixDays_month by done. revert H'. unfold nextMonth, daysIn.
  destruct (Z.eqb_spec m 12) as [->|Hne]; cbn [fst snd]; intros H'.
  - rewrite daysSinceEpoch_succ. calc_tables.
    destruct (isLeap y), (isLeap (y + 1)); cbn [andb]; lia.
  - destruct (isLeap y); by_month m H; calc_tables; cbn [andb]; lia.
Qed.

Lemma civil_rollForward y m d :
  1 <= m <= 12 -> 1 <= d <= 31 ->
  civil (unixDays y m d) = rollForward y m d.
Proof.
  intros Hm Hd. unfold rollForward.
  destruct (Z.leb_spec d (daysIn y m)) as [Hle|Hgt].
  - apply civil_unixDays. split; lia.
  - rewrite unixDays_overflow by done.
    pose proof (nextMonth_valid y m Hm) as Hn.
    pose proof (daysIn_range y m Hm).
    destruct (nextMonth y m) as [y2 m2]; cbn [fst snd] in *.
    pose proof (daysIn_range y2 m2 Hn).
    apply civil_unixDays. split; lia.
Qed.

Lemma validDate_day y m d : validDate y m d -> 1 <= m <= 12 /\ 1 <= d <= 31.
Proof.
  intros [Hm Hd]. pose proof (daysIn_range y m Hm). lia.
Qed.

(** ** Instants and wall clocks *)

Lemma nsPerSecond_pos : 0 < nsPerSecond.
Proof. reflexivity. Qed.

Lemma nsPerDay_pos : 0 < nsPerDay.
Proof. reflexivity. Qed.

Lemma nsPerDay_seconds : nsPerDay = secondsPerDay * nsPerSecond.
Proof. reflexivity. Qed.

Lemma nsPerHour_seconds : nsPerHour = 3600 * nsPerSecond.
Proof. reflexivity. Qed.

Lemma unixNano_split t :
  unixNano t = unixSec t * nsPerSecond + nsec t /\ 0 <= nsec t < nsPerSecond.
Proof.
  unfold unixSec, nsec. pose proof nsPerSecond_pos.
  pose proof (Z.div_mod (unixNano t) nsPerSecond ltac:(lia)).
  pose proof (Z.mod_pos_bound (unixNano t) nsPerSecond ltac:(lia)). lia.
Qed.

Lemma unixSec_mk sec ns loc :
  0 <= ns < nsPerSecond ->
  unixSec (mkTime (sec * nsPerSecond + ns) loc) = sec
  /\ nsec (mkTime (sec * nsPerSecond + ns) loc) = ns.
Proof.
  intros H. unfold unixSec, nsec. cbn [unixNano]. pose proof nsPerSecond_pos.
  split.
  - symmetry. apply (Z.div_unique _ _ _ ns); lia.
  - symmetry. apply (Z.mod_unique _ _ sec ns); lia.
Qed.

Lemma wallSec_split t :
  wallSec t = wallDay t * secondsPerDay + wallClock t
  /\ 0 <= wallClock t < secondsPerDay.
Proof.
  unfold wallDay, wallClock.
  assert (0 < secondsPerDay) by reflexivity.
  pose proof (Z.div_mod (wallSec t) secondsPerDay ltac:(lia)).
  pose proof (Z.mod_pos_bound (wallSec t) secondsPerDay ltac:(lia)). lia.
Qed.

Lemma wall_day_clock days clock :
  0 <= clock < secondsPerDay ->
  (days * secondsPerDay + clock) / secondsPerDay = days
  /\ (days * secondsPerDay + clock) mod secondsPerDay = clock.
Proof.
  intros H. assert (0 < secondsPerDay) by reflexivity. split.
  - symmetry. apply (Z.div_unique _ _ _ clock); lia.
  - symmetry. apply (Z.mod_unique _ _ days clock); lia.
Qed.

(** Hour, minute and second add up to the second of the day. *)
Lemma Clock_sum t :
  let '(hour, min, sec) := Clock t in (hour * 60 + min) * 60 + sec = wallClock t.
Proof.
  unfold Clock. generalize (wallClock t). intros s.
  Z.div_mod_to_equations. lia.
Qed.

Lemma civilDate_spec t :
  let '(y, m, d) := civilDate t in unixDays y m d = wallDay t /\ validDate y m d.
Proof. apply civil_spec. Qed.

(** [AddDate] is [Date]'s reading of the moved wall clock. *)
Lemma AddDate_fromWall years months days t :
  AddDate years months days t
  = mkTime (fromWall (location t) (wallAfter years months days t) * nsPerSecond
            + nsec t) (location t).
Proof.
  unfold AddDate, wallAfter, Date. destruct (civilDate t) as [[y m] d].
  pose proof (Clock_sum t) as C. destruct (Clock t) as [[hour min] sec].
  destruct (unixNano_split t) as [_ B].
  rewrite (Z.div_small (nsec t)), (Z.mod_small (nsec t)) by lia.
  rewrite Z.add_0_r. by rewrite C.
Qed.

Lemma AddDate_location years months days t :
  location (AddDate years months days t) = location t.
Proof. by rewrite AddDate_fromWall. Qed.

Lemma AddDate_unixSec years months days t :
  unixSec (AddDate years months days t)
  = fromWall (location t) (wallAfter years months days t)
  /\ nsec (AddDate years months days t) = nsec t.
Proof.
  rewrite AddDate_fromWall. destruct (unixNano_split t) as [_ B].
  by apply unixSec_mk.
Qed.

(** [Date] reads a wall clock in the zone found at the reading or in the
    zone found at the instant that zone gives. *)
Lemma fromWall_cases loc wall :
  fromWall loc wall = wall - zoneOffset loc wall
  \/ fromWall loc wall = wall - zoneOffset loc (wall - zoneOffset loc wall).
Proof.
  unfold fromWall, zoneOffset. destruct (lookup loc wall) as [[o a] b]. cbn [fst].
  destruct (Z.eqb_spec o 0) as [->|]; [left; lia|].
  destruct (_ || _); [by right|by left].
Qed.

Lemma fromWall_oneZone loc wall :
  oneZone loc wall -> fromWall loc wall = wall - zoneOffset loc wall.
Proof.
  intros H. destruct (fromWall_cases loc wall) as [E|E]; [done|].
  rewrite E. unfold oneZone in H. by rewrite H.
Qed.

Lemma oneZone_FixedZone offset wall : oneZone (FixedZone offset) wall.
Proof. reflexivity. Qed.

Lemma oneZone_UTC wall : oneZone UTC wall.
Proof. reflexivity. Qed.

Lemma forwardLocation_FixedZone offset : forwardLocation (FixedZone offset).
Proof. exists offset. intros s. cbn. lia. Qed.

Lemma forwardLocation_UTC : forwardLocation UTC.
Proof. exists 0. intros s. cbn. lia. Qed.

Lemma steadyZone_FixedZone t offset days :
  location t = FixedZone offset -> steadyZone t days.
Proof. intros E. unfold steadyZone. rewrite E. by intros s _. Qed.

Lemma steadyZone_UTC t days : location t = UTC -> steadyZone t days.
Proof. intros E. unfold steadyZone. rewrite E. by intros s _. Qed.

(** The moved wall clock, for each kind of step. *)
Lemma wallAfter_days k t : wallAfter 0 0 k t = wallSec t + k * secondsPerDay.
Proof.
  unfold wallAfter. pose proof (civilDate_spec t) as S.
  destruct (civilDate t) as [[y m] d]. destruct S as [E _].
  rewrite !Z.add_0_r, unixDays_day, E.
  destruct (wallSec_split t) as [-> _]. lia.
Qed.

Lemma wallAfter_month t :
  wallAfter 0 1 0 t
  = (let '(y, m, d) := civilDate t in
     let '(y2, m2) := nextMonth y m in unixDays y2 m2 d) * secondsPerDay
    + wallClock t.
Proof.
  unfold wallAfter. pose proof (civilDate_spec t) as S.
  destruct (civilDate t) as [[y m] d]. destruct S as [_ [Hm _]].
  rewrite !Z.add_0_r, unixDays_nextMonth by done.
  by destruct (nextMonth y m).
Qed.

Lemma wallAfter_month_later t :
  wallSec t + 28 * secondsPerDay <= wallAfter 0 1 0 t.
Proof.
  unfold wallAfter. pose proof (civilDate_spec t) as S.
  destruct (civilDate t) as [[y m] d]. destruct S as [E V].
  destruct V as [Hm Hd]. pose proof (daysIn_range y m Hm).
  destruct (wallSec_split t) as [-> _].
  rewrite !Z.add_0_r, unixDays_nextMonth by done.
  pose proof (unixDays_overflow y m (d + daysIn y m) Hm) as O.
  rewrite unixDays_day in O. replace (d + daysIn y m - daysIn y m) with d in O by lia.
  assert (0 < secondsPerDay) by reflexivity. nia.
Qed.

Lemma wallAfter_year_later t :
  wallSec t + 365 * secondsPerDay <= wallAfter 1 0 0 t.
Proof.
  unfold wallAfter. pose proof (civilDate_spec t) as S.
  destruct (civilDate t) as [[y m] d]. destruct S as [E V].
  destruct V as [Hm Hd].
  destruct (wallSec_split t) as [-> _].
  rewrite !Z.add_0_r. rewrite unixDays_month in * by done.
  rewrite daysSinceEpoch_succ.
  assert (wallDay t + 365 <=
    daysSinceEpoch y + 365 + (if isLeap y then 1 else 0) + daysBefore (m - 1) +
     (if isLeap (y + 1) && (3 <=? m) then 1 else 0) + (d - 1)).
  { rewrite <- E. destruct (isLeap y), (isLeap (y+1)), (3 <=? m); cbn [andb]; lia. }
  assert (0 < secondsPerDay) by reflexivity. nia.
Qed.

(** In a location whose offsets lie within 23 hours of each other, a wall
    clock moved a day or more forward is an instant at least an hour
    later. *)
Lemma AddDate_later years months days t :
  forwardLocation (location t) ->
  wallSec t + secondsPerDay <= wallAfter years months days t ->
  unixNano t + nsPerHour <= unixNano (AddDate years months days t).
Proof.
  intros [lo F] W. destruct (AddDate_unixSec years months days t) as [Es En].
  destruct (unixNano_split t) as [Et Bt].
  destruct (unixNano_split (AddDate years months days t)) as [Ea _].
  rewrite Ea, Et, Es, En. unfold wallSec in W.
  pose proof (F (unixSec t)) as F0.
  assert (unixSec t + 3600
          <= fromWall (location t) (wallAfter years months days t)) as P.
  { unfold secondsPerDay in W.
    destruct (fromWall_cases (location t) (wallAfter years months days t)) as [->| ->].
    - pose proof (F (wallAfter years months days t)). lia.
    - pose proof (F (wallAfter years months days t
                     - zoneOffset (location t) (wallAfter years months days t))). lia. }
  rewrite nsPerHour_seconds. pose proof nsPerSecond_pos. nia.
Qed.

(** When the moved wall clock is read in one zone, the result shows it:
    its wall clock in its location is the moved one. *)
Lemma AddDate_wallSec years months days t :
  oneZone (location t) (wallAfter years months days t) ->
  wallSec (AddDate years months days t) = wallAfter years months days t
  /\ unixSec (AddDate years months days t)
     = wallAfter years months days t
       - zoneOffset (location t) (wallAfter years months days t).
Proof.
  intros O. unfold wallSec. rewrite AddDate_location.
  destruct (AddDate_unixSec years months days t) as [-> _].
  rewrite fromWall_oneZone by done. unfold oneZone in O. rewrite O. lia.
Qed.

Lemma AddDate_days_wall k t :
  oneZone (location t) (wallSec t + k * secondsPerDay) ->
  wallDay (AddDate 0 0 k t) = wallDay t + k
  /\ wallClock (AddDate 0 0 k t) = wallClock t.
Proof.
  intros O. rewrite <- wallAfter_days in O.
  destruct (AddDate_wallSec _ _ _ _ O) as [W _].
  unfold wallDay at 1, wallClock at 1. rewrite W, wallAfter_days.
  destruct (wallSec_split t) as [-> B].
  replace (wallDay t * secondsPerDay + wallClock t + k * secondsPerDay)
    with ((wallDay t + k) * secondsPerDay + wallClock t) by lia.
  by apply wall_day_clock.
Qed.

Lemma AddDate_month_wall t :
  oneZone (location t) (wallAfter 0 1 0 t) ->
  civilDate (AddDate 0 1 0 t)
  = (let '(y, m, d) := civilDate t in
     let '(y2, m2) := nextMonth y m in rollForward y2 m2 d)
  /\ wallClock (AddDate 0 1 0 t) = wallClock t.
Proof.
  intros O. destruct (AddDate_wallSec _ _ _ _ O) as [W _].
  unfold civilDate at 1, wallDay at 1, wallClock at 1. rewrite W, wallAfter_month.
  pose proof (civilDate_spec t) as S.
  destruct (civilDate t) as [[y m] d]. destruct S as [E V].
  apply validDate_day in V as [Hm Hd].
  pose proof (nextMonth_valid y m Hm).
  destruct (nextMonth y m) as [y2 m2]; cbn [fst snd] in *.
  destruct (wallSec_split t) as [_ B].
  destruct (wall_day_clock (unixDays y2 m2 d) (wallClock t) B) as [-> ->].
  split; [|done]. by apply civil_rollForward.
Qed.

Lemma AddDate_year_wall t :
  oneZone (location t) (wallAfter 1 0 0 t) ->
  civilDate (AddDate 1 0 0 t)
  = (let '(y, m, d) := civilDate t in rollForward (y + 1) m d)
  /\ wallClock (AddDate 1 0 0 t) = wallClock t.
Proof.
  intros O. destruct (AddDate_wallSec _ _ _ _ O) as [W _].
  unfold civilDate at 1, wallDay at 1, wallClock at 1. rewrite W. unfold wallAfter.
  pose proof (civilDate_spec t) as S.
  destruct (civilDate t) as [[y m] d]. destruct S as [E V].
  apply validDate_day in V as [Hm Hd].
  destruct (wallSec_split t) as [_ B]. rewrite !Z.add_0_r.
  destruct (wall_day_clock (unixDays (y + 1) m d) (wallClock t) B) as [-> ->].
  split; [|done]. by apply civil_rollForward.
Qed.

(** A step of days inside one zone period is that many times 24 hours. *)
Lemma AddDate_days_steady k t :
  zoneOffset (location t) (wallSec t + k * secondsPerDay)
  = zoneOffset (location t) (unixSec t) ->
  zoneOffset (location t) (unixSec t + k * secondsPerDay)
  = zoneOffset (location t) (unixSec t) ->
  AddDate 0 0 k t = mkTime (unixNano t + k * nsPerDay) (location t).
Proof.
  intros H1 H2. rewrite AddDate_fromWall, wallAfter_days. f_equal.
  rewrite fromWall_oneZone.
  - rewrite H1. unfold wallSec. destruct (unixNano_split t) as [E _].
    rewrite nsPerDay_seconds. unfold secondsPerDay, nsPerSecond in *. lia.
  - unfold oneZone. rewrite H1. unfold wallSec.
    replace (unixSec t + zoneOffset (location t) (unixSec t) + k * secondsPerDay
             - zoneOffset (location t) (unixSec t))
      with (unixSec t + k * secondsPerDay) by lia. done.
Qed.

(** ** The two loops of the expansion *)

Lemma step_cases interval t :
  (interval = "daily"%string /\ step interval t = Some (AddDate 0 0 1 t))
  \/ (interval = "weekly"%string /\ step interval t = Some (AddDate 0 0 7 t))
  \/ (interval = "monthly"%string /\ step interval t = Some (AddDate 0 1 0 t))
  \/ (interval = "yearly"%string /\ step interval t = Some (AddDate 1 0 0 t))
  \/ (validInterval interval = false /\ step interval t = None).
Proof.
  unfold step, validInterval.
  destruct (String.eqb_spec interval "daily"); [tauto|].
  destruct (String.eqb_spec interval "weekly"); [tauto|].
  destruct (String.eqb_spec interval "monthly"); [tauto|].
  destruct (String.eqb_spec interval "yearly"); tauto.
Qed.

Lemma step_valid interval t :
  validInterval interval = true -> is_Some (step interval t).
Proof.
  intros V. destruct (step_cases interval t) as [[_ ->]|[[_ ->]|[[_ ->]|[[_ ->]|[E _]]]]];
    [by eexists..|congruence].
Qed.

Lemma step_invalid interval t :
  validInterval interval = false -> step interval t = None.
Proof.
  intros V. destruct (step_cases interval t) as [[-> _]|[[-> _]|[[-> _]|[[-> _]|[_ E]]]]];
    try discriminate V. exact E.
Qed.

Lemma step_location interval t next :
  step interval t = Some next -> location next = location t.
Proof.
  destruct (step_cases interval t) as [[_ ->]|[[_ ->]|[[_ ->]|[[_ ->]|[_ ->]]]]];
    intros [= <-]; apply AddDate_location.
Qed.

(** In a location whose offsets lie within 23 hours of each other every
    step moves the cursor at least one hour forward. *)
Lemma step_later interval t next :
  forwardLocation (location t) ->
  step interval t = Some next -> unixNano t + nsPerHour <= unixNano next.
Proof.
  intros F.
  destruct (step_cases interval t) as [[_ ->]|[[_ ->]|[[_ ->]|[[_ ->]|[_ ->]]]]];
    intros [= <-]; apply AddDate_later; try done.
  - rewrite wallAfter_days. lia.
  - rewrite wallAfter_days. unfold secondsPerDay. lia.
  - pose proof (wallAfter_month_later t). unfold secondsPerDay in *. lia.
  - pose proof (wallAfter_year_later t). unfold secondsPerDay in *. lia.
Qed.

Section LoopFacts.
Variable today : Time.
Variable recExp : RecurringExpense.t.

Local Abbreviation occ := (RecurringExpense.Occurrences recExp).
Local Abbreviation interval := (RecurringExpense.Interval recExp).
Local Abbreviation start := (RecurringExpense.StartDate recExp).

Lemma nsPerHour_pos : 0 < nsPerHour.
Proof. reflexivity. Qed.

Lemma ffNeed_pos c : 1 <= ffNeed today c.
Proof.
  unfold ffNeed, Before. destruct (Z.ltb_spec (unixNano c) (unixNano today)); [|lia].
  pose proof nsPerHour_pos.
  assert (0 <= (unixNano today - unixNano c) / nsPerHour) by (apply Z.div_pos; lia).
  lia.
Qed.

Lemma ffNeed_step c next :
  Before c today = true -> unixNano c + nsPerHour <= unixNano next ->
  ffNeed today next <= ffNeed today c - 1.
Proof.
  unfold ffNeed, Before. intros B L. rewrite B.
  apply Z.ltb_lt in B. pose proof nsPerHour_pos as P.
  destruct (Z.ltb_spec (unixNano next) (unixNano today)).
  - assert ((unixNano today - unixNano next) / nsPerHour + 1
            <= (unixNano today - unixNano c) / nsPerHour); [|lia].
    replace ((unixNano today - unixNano next) / nsPerHour + 1)
      with ((unixNano today - unixNano next + 1 * nsPerHour) / nsPerHour)
      by (rewrite Z.div_add; lia).
    apply Z.div_le_mono; lia.
  - assert (0 <= (unixNano today - unixNano c) / nsPerHour); [|lia].
    apply Z.div_pos; lia.
Qed.

(** Enough fuel in a location that moves forward: the hours left. *)
Lemma fastForward_run_forward fuel c o :
  forwardLocation (location c) ->
  ffNeed today c <= Z.of_nat fuel ->
  ffRun today recExp c o (fastForward today recExp fuel c o).
Proof.
  revert c o. induction fuel as [|fuel IH]; intros c o F N.
  - pose proof (ffNeed_pos c). lia.
  - cbn [fastForward]. destruct (ffCond today recExp c o) eqn:C.
    + destruct (step interval c) as [next|] eqn:S.
      * eapply ffRun_step; [done..|].
        apply IH; [by rewrite (step_location _ _ _ S)|].
        assert (Before c today = true) as B
          by (unfold ffCond in C; by apply andb_true_iff in C as [? _]).
        pose proof (ffNeed_step c next B (step_later _ _ _ F S)). lia.
      * by apply ffRun_invalid.
    + by apply ffRun_exit.
Qed.

(** Enough fuel on a bounded budget: the budget left. *)
Lemma fastForward_run_bounded fuel c o :
  0 < occ -> Z.max 0 o < Z.of_nat fuel ->
  ffRun today recExp c o (fastForward today recExp fuel c o).
Proof.
  intros Hocc. revert c o. induction fuel as [|fuel IH]; intros c o N; [lia|].
  cbn [fastForward]. destruct (ffCond today recExp c o) eqn:C.
  - destruct (step interval c) as [next|] eqn:S.
    + eapply ffRun_step; [done..|]. apply IH.
      unfold ffCond in C. apply andb_true_iff in C as [_ C].
      apply orb_true_iff in C as [C|C]; [apply Z.eqb_eq in C; lia|].
      apply Z.ltb_lt in C. unfold ffBudget.
      destruct (Z.ltb_spec 0 occ); lia.
    + by apply ffRun_invalid.
  - by apply ffRun_exit.
Qed.

(** One test is enough when the loop does not make a first step. *)
Lemma fastForward_run_once fuel c o :
  ffCond today recExp c o = false \/ step interval c = None ->
  ffRun today recExp c o (fastForward today recExp (S fuel) c o).
Proof.
  intros H. cbn [fastForward]. destruct (ffCond today recExp c o) eqn:C.
  - destruct H as [H|H]; [discriminate|]. rewrite H. by apply ffRun_invalid.
  - by apply ffRun_exit.
Qed.

Lemma ffRun_fun c o out1 out2 :
  ffRun today recExp c o out1 -> ffRun today recExp c o out2 -> out1 = out2.
Proof.
  intros R1. revert out2. induction R1; intros out2 R2; inversion R2; subst;
    try congruence.
  apply IHR1. congruence.
Qed.

Lemma ffRun_ends c o out :
  ffRun today recExp c o out ->
  (exists c' o', out = ffDone c' o' /\ ffCond today recExp c' o' = false)
  \/ (exists c' o', out = ffInvalid c' o' /\ ffCond today recExp c' o' = true
        /\ step interval c' = None).
Proof. induction 1; eauto 7. Qed.

(** The loop of the source ends, and [fastForward] on [ffFuel] is how:
    on a bounded budget and on an invalid interval in every location, on
    an unbounded budget in a location that moves forward. *)
Lemma fastForward_fuel :
  occ <> 0 \/ validInterval interval = false \/ forwardLocation (location start) ->
  ffRun today recExp start occ (fastForward today recExp (ffFuel today recExp) start occ).
Proof.
  intros H. destruct (Z.lt_trichotomy occ 0) as [Hneg|[Hz|Hpos]].
  - apply fastForward_run_once. left. unfold ffCond.
    replace (occ =? 0) with false by (symmetry; apply Z.eqb_neq; lia).
    replace (0 <? occ) with false by (symmetry; apply Z.ltb_ge; lia).
    apply andb_false_r.
  - destruct H as [H|[H|H]]; [done| |].
    + apply fastForward_run_once. right. by apply step_invalid.
    + apply fastForward_run_forward; [done|]. unfold ffNeed, ffFuel, Before.
      destruct (Z.ltb_spec (unixNano start) (unixNano today)); [|lia].
      pose proof nsPerHour_pos.
      assert (0 <= (unixNano today - unixNano start) / nsPerHour)
        by (apply Z.div_pos; lia).
      lia.
  - apply fastForward_run_bounded; [done|]. unfold ffFuel. lia.
Qed.

Lemma fastForward_complete out :
  occ <> 0 \/ validInterval interval = false \/ forwardLocation (location start) ->
  ffRun today recExp start occ out ->
  fastForward today recExp (ffFuel today recExp) start occ = out.
Proof. intros H R. exact (ffRun_fun _ _ _ _ (fastForward_fuel H) R). Qed.

Lemma fastForward_ends :
  occ <> 0 \/ validInterval interval = false \/ forwardLocation (location start) ->
  fastForward today recExp (ffFuel today recExp) start occ <> ffOutOfFuel.
Proof.
  intros H.
  destruct (ffRun_ends _ _ _ (fastForward_fuel H)) as [(?&?&->&_)|(?&?&->&_)]; done.
Qed.

(** Where the function says the loop ended, its condition is false, and
    the cursor is still in the location of the start. *)
Lemma fastForward_done fuel c o c' o' :
  fastForward today recExp fuel c o = ffDone c' o' ->
  ffCond today recExp c' o' = false /\ location c' = location c.
Proof.
  revert c o. induction fuel as [|fuel IH]; intros c o; [discriminate|].
  cbn [fastForward]. destruct (ffCond today recExp c o) eqn:C.
  - destruct (step interval c) as [next|] eqn:S; [|discriminate].
    intros H. destruct (IH _ _ H) as [? ->]. split; [done|].
    by apply (step_location _ _ _ S).
  - intros [= <- <-]. done.
Qed.

(** The budget left stays between 0 and the budget the loop started with. *)
Lemma ffRun_budget c o out :
  ffRun today recExp c o out ->
  occ <> 0 -> 0 <= o ->
  exists c' o', (out = ffDone c' o' \/ out = ffInvalid c' o') /\ 0 <= o' <= o.
Proof.
  induction 1 as [c o C|c o C S|c o next out C S R IH]; intros Hocc Ho.
  - exists c, o. split; [by left|lia].
  - exists c, o. split; [by right|lia].
  - unfold ffCond in C. apply andb_true_iff in C as [_ C].
    apply orb_true_iff in C as [C|C]; [apply Z.eqb_eq in C; lia|].
    apply Z.ltb_lt in C.
    destruct IH as (c' & o' & E & B); [done|unfold ffBudget; destruct (0 <? occ); lia|].
    exists c', o'. split; [done|]. unfold ffBudget in B. destruct (0 <? occ); lia.
Qed.

(** An unbounded budget is never touched. *)
Lemma ffRun_unbounded c out :
  ffRun today recExp c 0 out -> occ = 0 ->
  exists c', out = ffDone c' 0 \/ out = ffInvalid c' 0.
Proof.
  intros R Hocc. remember 0 as o eqn:Ho in R. revert Ho.
  induction R as [c o C|c o C S|c o next out C S R IH]; intros ->; eauto.
  apply IH. unfold ffBudget. rewrite Hocc. reflexivity.
Qed.

Lemma ffSteps_chain fuel c o i a b a' b' :
  ((c, o) :: ffSteps today recExp fuel c o) !! i = Some (a, b) ->
  ((c, o) :: ffSteps today recExp fuel c o) !! S i = Some (a', b') ->
  ffCond today recExp a b = true /\ step interval a = Some a'
  /\ b' = ffBudget recExp b.
Proof.
  revert c o i. induction fuel as [|fuel IH]; intros c o i H1 H2.
  - destruct i; discriminate H2.
  - cbn [ffSteps] in H1, H2.
    destruct (ffCond today recExp c o) eqn:C; [|destruct i; discriminate H2].
    destruct (step interval c) as [next|] eqn:S; [|destruct i; discriminate H2].
    destruct i as [|i].
    + cbn in H1, H2. injection H1 as <- <-. injection H2 as <- <-. done.
    + apply (IH next (ffBudget recExp o) i); [exact H1|exact H2].
Qed.

Lemma ffSteps_last fuel c o c' o' :
  fastForward today recExp fuel c o = ffDone c' o' ->
  last ((c, o) :: ffSteps today recExp fuel c o) = Some (c', o').
Proof.
  revert c o. induction fuel as [|fuel IH]; intros c o H; [discriminate H|].
  cbn [fastForward ffSteps] in *.
  destruct (ffCond today recExp c o) eqn:C; [|by injection H as <- <-].
  destruct (step interval c) as [next|] eqn:S; [|discriminate H].
  rewrite last_cons_cons. by apply IH.
Qed.

(** On a bounded budget each step takes one unit: the units taken are the
    steps made. *)
Lemma fastForward_steps fuel c o c' o' :
  0 < occ ->
  fastForward today recExp fuel c o = ffDone c' o'
  \/ fastForward today recExp fuel c o = ffInvalid c' o' ->
  o - o' = Z.of_nat (length (ffSteps today recExp fuel c o)).
Proof.
  intros Hocc. revert c o. induction fuel as [|fuel IH]; intros c o H.
  - by destruct H.
  - cbn [fastForward ffSteps] in *.
    destruct (ffCond today recExp c o).
    + destruct (step interval c) as [next|].
      * assert (ffBudget recExp o = o - 1) as Hb
          by (unfold ffBudget; by destruct (Z.ltb_spec 0 occ); [|lia]).
        rewrite Hb in *. apply IH in H. cbn [length]. lia.
      * destruct H as [H|H]; [discriminate|]. injection H as _ <-. cbn. lia.
    + destruct H as [H|H]; [|discriminate]. injection H as _ <-. cbn. lia.
Qed.

End LoopFacts.

Section GenerateFacts.
Variable recExp : RecurringExpense.t.
Local Abbreviation interval := (RecurringExpense.Interval recExp).

Lemma generate_length uuid limit drawn c :
  (length (generate uuid recExp limit drawn c) <= limit)%nat.
Proof.
  revert drawn c. induction limit as [|limit IH]; intros drawn c; cbn [generate]; [done|].
  destruct (step interval c) as [next|]; cbn [length]; [|lia].
  specialize (IH (S drawn) next). lia.
Qed.

Lemma generate_length_valid uuid limit drawn c :
  validInterval interval = true ->
  length (generate uuid recExp limit drawn c) = limit.
Proof.
  intros V. revert drawn c. induction limit as [|limit IH]; intros drawn c;
    cbn [generate]; [done|].
  destruct (step_valid interval c V) as [next ->]. cbn [length]. by rewrite IH.
Qed.

Lemma generate_invalid uuid limit drawn c :
  validInterval interval = false ->
  generate uuid recExp limit drawn c
  = match limit with O => [] | S _ => [newExpense (uuid drawn) recExp c] end.
Proof.
  intros V. destruct limit; cbn [generate]; [done|]. by rewrite step_invalid.
Qed.

(** The dates depend on the rule alone, not on the identifiers drawn. *)
Lemma generate_dates uuid1 uuid2 limit drawn1 drawn2 c :
  Expense.Date <$> generate uuid1 recExp limit drawn1 c
  = Expense.Date <$> generate uuid2 recExp limit drawn2 c.
Proof.
  revert drawn1 drawn2 c. induction limit as [|limit IH]; intros drawn1 drawn2 c;
    cbn [generate]; [done|].
  destruct (step interval c); cbn; [|done]. f_equal. apply IH.
Qed.

Lemma generate_location uuid limit drawn c e :
  e ∈ generate uuid recExp limit drawn c ->
  location (Expense.Date e) = location c.
Proof.
  revert drawn c. induction limit as [|limit IH]; intros drawn c; cbn [generate].
  - by intros ?%elem_of_nil.
  - destruct (step interval c) as [next|] eqn:S.
    + intros [->|H]%elem_of_cons; [done|].
      apply IH in H. by rewrite H, (step_location _ _ _ S).
    + by intros ->%list_elem_of_singleton.
Qed.

(** In a location that moves forward the dates do not go back behind the
    cursor, and ascend. *)
Lemma generate_not_before uuid limit drawn c e :
  forwardLocation (location c) ->
  e ∈ generate uuid recExp limit drawn c ->
  unixNano c <= unixNano (Expense.Date e).
Proof.
  revert drawn c. induction limit as [|limit IH]; intros drawn c F; cbn [generate].
  - by intros ?%elem_of_nil.
  - destruct (step interval c) as [next|] eqn:S.
    + intros [->|H]%elem_of_cons; [cbn; lia|].
      apply IH in H; [|by rewrite (step_location _ _ _ S)].
      pose proof (step_later _ _ _ F S). pose proof nsPerHour_pos. lia.
    + intros ->%list_elem_of_singleton. cbn. lia.
Qed.

Lemma generate_sorted uuid limit drawn c :
  forwardLocation (location c) ->
  StronglySorted (fun t u => unixNano t < unixNano u)
    (Expense.Date <$> generate uuid recExp limit drawn c).
Proof.
  revert drawn c. induction limit as [|limit IH]; intros drawn c F; cbn [generate].
  - constructor.
  - destruct (step interval c) as [next|] eqn:S; cbn.
    + assert (forwardLocation (location next)) as F'
        by (by rewrite (step_location _ _ _ S)).
      constructor; [by apply IH|]. apply Forall_forall. intros d Hd.
      apply list_elem_of_fmap in Hd as (e & -> & He).
      apply generate_not_before in He; [|done].
      pose proof (step_later _ _ _ F S). pose proof nsPerHour_pos. lia.
    + repeat constructor.
Qed.

Lemma generate_fields uuid limit drawn c e :
  e ∈ generate uuid recExp limit drawn c ->
  exists k d, e = newExpense (uuid (drawn + k)%nat) recExp d.
Proof.
  revert drawn c. induction limit as [|limit IH]; intros drawn c; cbn [generate].
  - by intros ?%elem_of_nil.
  - assert (e = newExpense (uuid drawn) recExp c ->
            exists k d, e = newExpense (uuid (drawn + k)%nat) recExp d) as Hhd.
    { intros ->. exists 0%nat, c. by rewrite Nat.add_0_r. }
    destruct (step interval c) as [next|].
    + intros [->|H]%elem_of_cons; [by apply Hhd|].
      apply IH in H as (k & d & ->). exists (S k), d. do 2 f_equal. lia.
    + intros ->%list_elem_of_singleton. by apply Hhd.
Qed.

End GenerateFacts.

Lemma consumed_counts_steps today recExp :
  0 < RecurringExpense.Occurrences recExp ->
  consumed recExp today true
  = Z.of_nat (length (ffStates today recExp)) - 1.
Proof.
  intros Hocc. unfold consumed, ffStates. cbn [length].
  assert (RecurringExpense.Occurrences recExp <> 0) as Hne by lia.
  pose proof (fastForward_fuel today recExp (or_introl Hne)) as R.
  destruct (ffRun_ends _ _ _ _ _ R) as [(c & o & E & _)|(c & o & E & _)];
    rewrite E;
    rewrite (fastForward_steps today recExp (ffFuel today recExp)
               (RecurringExpense.StartDate recExp)
               (RecurringExpense.Occurrences recExp) c o Hocc) by eauto; lia.
Qed.

(** ** The store *)

Lemma filter_ext_elem {A} (P Q : A -> Prop)
    `{!forall x, Decision (P x)} `{!forall x, Decision (Q x)} (l : list A) :
  (forall x, x ∈ l -> P x <-> Q x) -> filter P l = filter Q l.
Proof.
  induction l as [|x l IH]; intros Hl; [done|].
  rewrite !filter_cons.
  assert (P x <-> Q x) as Hx by (apply Hl; left).
  rewrite IH by (intros y Hy; apply Hl; by right).
  destruct (decide (P x)), (decide (Q x)); tauto || done.
Qed.

Lemma filter_none {A} (P : A -> Prop) `{!forall x, Decision (P x)} (l : list A) :
  (forall x, x ∈ l -> ~ P x) -> filter P l = [].
Proof.
  induction l as [|x l IH]; intros Hl; [done|].
  rewrite filter_cons. destruct (decide (P x)) as [HP|_].
  - destruct (Hl x); [left|done].
  - apply IH. intros y Hy. apply Hl. by right.
Qed.

Lemma rowsWithID_nil id rows :
  (forall r, r ∈ rows -> RecurringExpense.ID r <> id) -> rowsWithID id rows = [].
Proof.
  intros H. unfold rowsWithID. destruct (filter _ rows) as [|r l] eqn:E; [done|].
  assert (r ∈ filter (fun r => RecurringExpense.ID r = id) rows) as Hr
    by (rewrite E; apply list_elem_of_here).
  apply list_elem_of_filter in Hr as [Hid Hin]. by destruct (H r Hin).
Qed.

Lemma copyIn_Some table rows table' :
  copyIn table rows = Some table' -> table' = table ++ rows.
Proof.
  revert table. induction rows as [|e rows IH]; intros table; cbn [copyIn].
  - intros [= <-]. by rewrite app_nil_r.
  - destruct (decide _); [discriminate|]. intros H%IH. by rewrite <- app_assoc in H.
Qed.

Lemma deleteInstances_elem id all now rows e :
  e ∈ deleteInstances id all now rows <-> e ∈ rows /\ ~ deleted id all now e.
Proof. unfold deleteInstances. rewrite list_elem_of_filter. tauto. Qed.

(** Every instance of an expansion is built from the rule, with an
    identifier drawn during the call. *)
Lemma expansion_fields uuid recExp drawn today fromToday e :
  e ∈ generateExpensesFromRecurring uuid recExp drawn today fromToday ->
  exists k d, e = newExpense (uuid (drawn + k)%nat) recExp d.
Proof.
  unfold generateExpensesFromRecurring. destruct fromToday.
  - destruct (fastForward _ _ _ _ _); [|by intros ?%elem_of_nil..].
    apply generate_fields.
  - apply generate_fields.
Qed.

(** With [fromToday], in a location that moves forward, no instance is
    dated before today. *)
Lemma generate_fromToday uuid recExp drawn today e :
  forwardLocation (location (RecurringExpense.StartDate recExp)) ->
  e ∈ generateExpensesFromRecurring uuid recExp drawn today true ->
  Expense.RecurringID e = RecurringExpense.ID recExp
  /\ unixNano today <= unixNano (Expense.Date e).
Proof.
  unfold generateExpensesFromRecurring. intros F.
  destruct (fastForward _ _ _ _ _) as [c o| |] eqn:E; [|by intros ?%elem_of_nil..].
  apply fastForward_done in E as [C L].
  intros He. split.
  { apply generate_fields in He as (k & d & ->). reflexivity. }
  unfold ffCond in C. apply andb_false_iff in C as [C|C].
  - apply generate_not_before in He; [|by rewrite L].
    unfold Before in C. apply Z.ltb_ge in C. lia.
  - apply orb_false_iff in C as [_ C]. apply Z.ltb_ge in C.
    replace (Z.to_nat o) with 0%nat in He by lia. by apply elem_of_nil in He.
Qed.

Section UpdateFacts.
Variable uuid : nat -> string.

(** What a committed future-only update leaves in the store. *)
Lemma Update_futureOnly drawn now today s id newRule s' :
  UpdateRecurringExpense uuid drawn now today s id newRule false = (None, s') ->
  expenses s'
  = deleteInstances id false now (expenses s)
    ++ generateExpensesFromRecurring uuid (withDefaults s id newRule) drawn today true
  /\ defaults s' = defaults s.
Proof.
  unfold UpdateRecurringExpense. destruct (_ =? _)%nat; [discriminate|].
  cbn [negb]. destruct (copyIn _ _) as [rows|] eqn:E; [|discriminate].
  intros [= <-]. cbn. split; [|done]. by apply copyIn_Some.
Qed.

Lemma Update_futureOnly_frame drawn now today s id newRule s' :
  UpdateRecurringExpense uuid drawn now today s id newRule false = (None, s') ->
  forwardLocation (location (RecurringExpense.StartDate newRule)) ->
  unixNano now <= unixNano today ->
  (forall e, e ∈ expenses s ->
     Expense.RecurringID e <> id \/ unixNano (Expense.Date e) <= unixNano now ->
     e ∈ expenses s')
  /\ (forall e, e ∈ expenses s' ->
        (e ∈ expenses s
         /\ (Expense.RecurringID e <> id \/ unixNano (Expense.Date e) <= unixNano now))
        \/ (e ∈ generateExpensesFromRecurring uuid (withDefaults s id newRule)
                 drawn today true
            /\ Expense.RecurringID e = id
            /\ unixNano now <= unixNano (Expense.Date e)))
  /\ futureOf id now (expenses s')
     = filter (fun e => unixNano now < unixNano (Expense.Date e))
         (generateExpensesFromRecurring uuid (withDefaults s id newRule)
            drawn today true).
Proof.
  intros U F Hclock. apply Update_futureOnly in U as [E _]. rewrite E.
  change (RecurringExpense.StartDate newRule)
    with (RecurringExpense.StartDate (withDefaults s id newRule)) in F.
  split; [|split].
  - intros e He Hk. apply elem_of_app. left. apply deleteInstances_elem.
    split; [done|]. unfold deleted. intros [? [?|?]]; [done|].
    destruct Hk; [done|lia].
  - intros e [He|He]%elem_of_app.
    + left. apply deleteInstances_elem in He as [He Hd]. split; [done|].
      unfold deleted in Hd. destruct (decide (Expense.RecurringID e = id)); [|by left].
      right. destruct (Z.le_gt_cases (unixNano (Expense.Date e)) (unixNano now)); [done|].
      destruct Hd. split; [done|]. right. lia.
    + right. split; [done|]. apply generate_fromToday in He as [? ?]; [|done].
      cbn in *. split; [done|lia].
  - unfold futureOf. rewrite filter_app.
    replace (filter _ (deleteInstances id false now (expenses s))) with (@nil Expense.t).
    + cbn [app]. apply filter_ext_elem. intros e He.
      apply generate_fromToday in He as [? ?]; [|done]. cbn in *. tauto.
    + symmetry. apply filter_none. intros e He [Hid Hlt].
      apply deleteInstances_elem in He as [_ Hd]. apply Hd.
      split; [done|]. by right.
Qed.
(** When the identifiers drawn are not ids of the table, the instances
    the update deleted are not in it afterwards. *)
Lemma Update_futureOnly_gone drawn now today s id newRule s' e :
  UpdateRecurringExpense uuid drawn now today s id newRule false = (None, s') ->
  (forall k, uuid (drawn + k)%nat ∉ Expense.ID <$> expenses s) ->
  e ∈ expenses s -> Expense.RecurringID e = id ->
  unixNano now < unixNano (Expense.Date e) ->
  e ∉ expenses s'.
Proof.
  intros U Hfresh He Hid Hlt. apply Update_futureOnly in U as [E _]. rewrite E.
  intros [Hk|Hn]%elem_of_app.
  - apply deleteInstances_elem in Hk as [_ Hd]. apply Hd. split; [done|]. by right.
  - apply expansion_fields in Hn as (k & d & ->).
    apply (Hfresh k). by apply (list_elem_of_fmap_2 Expense.ID) in He.
Qed.

End UpdateFacts.

(** ** Steps inside one zone period *)

Lemma unixSec_days t k :
  unixSec (mkTime (unixNano t + k * nsPerDay) (location t))
  = unixSec t + k * secondsPerDay.
Proof.
  unfold unixSec. cbn [unixNano]. rewrite nsPerDay_seconds.
  replace (k * (secondsPerDay * nsPerSecond)) with (k * secondsPerDay * nsPerSecond) by lia.
  rewrite Z.div_add; [done|]. pose proof nsPerSecond_pos. lia.
Qed.

Lemma AddDate_steadyZone k t :
  0 <= k -> steadyZone t k ->
  AddDate 0 0 k t = mkTime (unixNano t + k * nsPerDay) (location t).
Proof.
  intros Hk S. unfold steadyZone in S. cbn zeta in S.
  apply AddDate_days_steady.
  - apply S. unfold wallSec, secondsPerDay in *. lia.
  - apply S. unfold secondsPerDay in *. lia.
Qed.

(** The days of a steady window: each is 24 hours after the one before,
    on the next day of the wall clock, and the window goes on from it. *)
Lemma steadyZone_day k j t :
  0 <= k -> 0 <= j -> steadyZone t (k + j) ->
  wallDay (mkTime (unixNano t + k * nsPerDay) (location t)) = wallDay t + k
  /\ wallClock (mkTime (unixNano t + k * nsPerDay) (location t)) = wallClock t
  /\ steadyZone (mkTime (unixNano t + k * nsPerDay) (location t)) j.
Proof.
  intros Hk Hj S. unfold steadyZone in S. cbn zeta in S.
  assert (zoneOffset (location t) (unixSec t + k * secondsPerDay)
          = zoneOffset (location t) (unixSec t)) as O
    by (apply S; unfold secondsPerDay in *; lia).
  assert (wallSec (mkTime (unixNano t + k * nsPerDay) (location t))
          = (wallDay t + k) * secondsPerDay + wallClock t) as W.
  { unfold wallSec at 1. rewrite unixSec_days. cbn [location]. rewrite O.
    destruct (wallSec_split t) as [E _]. unfold wallSec in E. lia. }
  destruct (wallSec_split t) as [_ B].
  unfold wallDay at 1, wallClock at 1. rewrite W.
  destruct (wall_day_clock (wallDay t + k) (wallClock t) B) as [-> ->].
  split; [done|]. split; [done|].
  unfold steadyZone. cbn zeta. rewrite unixSec_days. cbn [location]. rewrite O.
  intros s Hs. apply S. unfold secondsPerDay in *. lia.
Qed.

Lemma Time_eq t u :
  unixNano t = unixNano u -> location t = location u -> t = u.
Proof. destruct t, u. cbn. by intros -> ->. Qed.

(** The step on a date of the samples, by evaluation of the instant. *)
Ltac step_by_eval :=
  match goal with
  | |- step ?kind ?t = Some ?u =>
      let r := eval cbv beta iota delta [step String.eqb Ascii.eqb Bool.eqb] in (step kind t) in
      change (r = Some u); apply (f_equal Some); apply Time_eq;
      [by vm_compute|rewrite AddDate_location; reflexivity]
  end.

Lemma forwardLocation_NewYork : forwardLocation NewYork.
Proof.
  exists (-18000). intros s. unfold zoneOffset, NewYork, zoneTable. cbn.
  repeat destruct (_ <? _); cbn; lia.
Qed.

Lemma forwardLocation_Havana : forwardLocation Havana.
Proof.
  exists (-18000). intros s. unfold zoneOffset, Havana, zoneTable. cbn.
  repeat destruct (_ <? _); cbn; lia.
Qed.

(** ** The claims of the specification *)

(** C1. The store holds the daily rule of 3 occurrences that starts on
    2026-01-01 and its instances of January 1, 2 and 3. A future-only
    update with the same rule, when the clock reads 2026-01-03 00:00:00
    both times, commits; no instance is dated after the cutover before or
    after it, yet the expansion returns an instance dated at the cutover,
    and the store ends with two instances of January 3 and four instances
    for a budget of three. *)
Theorem C1_update_regenerates_cutover_instance :
  let s' := snd (UpdateRecurringExpense uuid0 3 cutover cutover store1 "r1"
                   (rule "daily" 3) false) in
  let expanded := generateExpensesFromRecurring uuid0
                    (withDefaults store1 "r1" (rule "daily" 3)) 3 cutover true in
  fst (UpdateRecurringExpense uuid0 3 cutover cutover store1 "r1"
         (rule "daily" 3) false) = None
  /\ (Expense.ID <$> expenses store1 = ["m1"; "e0"; "e1"; "e2"])%string
  /\ futureOf "r1" cutover (expenses store1) = []
  /\ (Expense.ID <$> expanded = ["e3"])%string
  /\ Expense.Date <$> expanded = [cutover]
  /\ futureOf "r1" cutover (expenses s') = []
  /\ futureOf "r1" cutover (expenses s') <> expanded
  /\ (Expense.ID <$> expenses s' = ["m1"; "e0"; "e1"; "e2"; "e3"])%string
  /\ Expense.Date <$> filter (fun e => Expense.RecurringID e = "r1"%string) (expenses s')
     = [Date 2026 1 1 0 0 0 0 UTC; Date 2026 1 2 0 0 0 0 UTC; cutover; cutover].
Proof.
  vm_compute. repeat split; discriminate.
Qed.

(** C2. When no rule row has the id, [UpdateRecurringExpense] and
    [RemoveRecurringExpense] both return their not-found error and leave
    the store (rule rows, expense rows and defaults) as it was. *)
Theorem C2_not_found_leaves_store uuid drawn now today s id newRule updateAll removeAll :
  (forall r, r ∈ recurring_expenses s -> RecurringExpense.ID r <> id) ->
  UpdateRecurringExpense uuid drawn now today s id newRule updateAll
  = (Some (ErrNotFoundToUpdate id), s)
  /\ RemoveRecurringExpense now s id removeAll = (Some (ErrNotFound id), s).
Proof.
  intros H. unfold UpdateRecurringExpense, RemoveRecurringExpense.
  by rewrite (rowsWithID_nil id _ H).
Qed.

Lemma C2_not_found_witness :
  (forall r, r ∈ recurring_expenses store1 -> RecurringExpense.ID r <> "r2"%string)
  /\ UpdateRecurringExpense uuid0 3 cutover cutover store1 "r2" (rule "weekly" 9) true
     = (Some (ErrNotFoundToUpdate "r2"), store1)
  /\ RemoveRecurringExpense cutover store1 "r2" false
     = (Some (ErrNotFound "r2"), store1).
Proof.
  assert (forall r, r ∈ recurring_expenses store1 -> RecurringExpense.ID r <> "r2"%string)
    as H.
  { intros r Hr. vm_compute in Hr. apply list_elem_of_singleton in Hr. by subst r. }
  split; [exact H|].
  apply (C2_not_found_leaves_store uuid0 3%nat cutover cutover store1 "r2"
           (rule "weekly" 9) true false H).
Defined.

(** C3, as the specification words it, fails: the daily rule of 5
    occurrences that starts on 2026-01-01 at midnight, fast-forwarded at noon
    of that day, takes one step; the step lands on 2026-01-02, which is not
    before noon of 2026-01-01, and it takes a unit of the budget all the
    same (5 becomes 4). *)
Lemma C3_landing_step_consumes :
  RecurringExpense.Occurrences (rule "daily" 5) <> 0
  /\ validInterval (RecurringExpense.Interval (rule "daily" 5)) = true
  /\ ffStates noon (rule "daily" 5)
     = [(Date 2026 1 1 0 0 0 0 UTC, 5); (Date 2026 1 2 0 0 0 0 UTC, 4)]
  /\ Before (Date 2026 1 2 0 0 0 0 UTC) noon = false
  /\ ~ consumesOnLanding noon (Date 2026 1 1 0 0 0 0 UTC, 5) (Date 2026 1 2 0 0 0 0 UTC, 4).
Proof.
  split; [discriminate|]. split; [reflexivity|]. split; [reflexivity|].
  split; [reflexivity|]. vm_compute. discriminate.
Qed.

(** C3, amended. For a rule with a non-zero occurrence budget and a valid
    interval kind, fast-forward advances the cursor from the start date
    while the cursor is before today and budget is left, and every step
    takes one unit of the budget, wherever it lands; the loop ends in the
    last of these states, the first whose cursor is not before today or
    whose budget is used up. *)
Theorem C3_every_step_consumes today recExp :
  RecurringExpense.Occurrences recExp <> 0 ->
  validInterval (RecurringExpense.Interval recExp) = true ->
  (forall i c o c' o',
     ffStates today recExp !! i = Some (c, o) ->
     ffStates today recExp !! S i = Some (c', o') ->
     Before c today = true /\ 0 < o
     /\ step (RecurringExpense.Interval recExp) c = Some c'
     /\ o' = o - 1)
  /\ (exists c o,
        last (ffStates today recExp) = Some (c, o)
        /\ fastForward today recExp (ffFuel today recExp)
             (RecurringExpense.StartDate recExp)
             (RecurringExpense.Occurrences recExp) = ffDone c o
        /\ (Before c today = false \/ o <= 0)).
Proof.
  intros Hne V. split.
  - intros i c o c' o' H1 H2. unfold ffStates in *.
    destruct (ffSteps_chain _ _ _ _ _ _ _ _ _ _ H1 H2) as (C & S & E).
    unfold ffCond in C. apply andb_true_iff in C as [B C].
    apply orb_true_iff in C as [C|C]; [apply Z.eqb_eq in C; lia|].
    apply Z.ltb_lt in C. repeat split; [done..|].
    rewrite E. unfold ffBudget.
    destruct (Z.ltb_spec 0 (RecurringExpense.Occurrences recExp)) as [|Hneg]; [done|].
    exfalso. clear -H2 Hne Hneg. revert H2.
    unfold ffFuel. cbn [ffSteps]. unfold ffCond.
    replace (RecurringExpense.Occurrences recExp =? 0) with false
      by (symmetry; by apply Z.eqb_neq).
    replace (0 <? RecurringExpense.Occurrences recExp) with false
      by (symmetry; apply Z.ltb_ge; lia).
    rewrite andb_false_r. by destruct i.
  - pose proof (fastForward_fuel today recExp (or_introl Hne)) as R.
    destruct (ffRun_ends _ _ _ _ _ R) as [(c & o & E & C)|(c & o & _ & _ & S)].
    + exists c, o. split; [by apply ffSteps_last|]. split; [done|].
      unfold ffCond in C. apply andb_false_iff in C as [C|C]; [by left|right].
      apply orb_false_iff in C as [_ C]. by apply Z.ltb_ge in C.
    + destruct (step_valid _ c V) as [next E]. congruence.
Qed.

Lemma C3_every_step_witness :
  RecurringExpense.Occurrences (rule "daily" 5) <> 0
  /\ validInterval (RecurringExpense.Interval (rule "daily" 5)) = true
  /\ ffStates cutover (rule "daily" 5) !! 1%nat = Some (Date 2026 1 2 0 0 0 0 UTC, 4)
  /\ ffStates cutover (rule "daily" 5) !! 2%nat = Some (Date 2026 1 3 0 0 0 0 UTC, 3)
  /\ Before (Date 2026 1 3 0 0 0 0 UTC) cutover = false
  /\ (Before (Date 2026 1 2 0 0 0 0 UTC) cutover = true /\ 0 < 4
      /\ step (RecurringExpense.Interval (rule "daily" 5)) (Date 2026 1 2 0 0 0 0 UTC)
         = Some (Date 2026 1 3 0 0 0 0 UTC)
      /\ 3 = 4 - 1).
Proof.
  split; [discriminate|]. split; [reflexivity|]. split; [reflexivity|].
  split; [reflexivity|]. split; [reflexivity|].
  apply (C3_every_step_consumes cutover (rule "daily" 5)) with (i := 1%nat).
  - discriminate.
  - reflexivity.
  - reflexivity.
  - reflexivity.
Defined.

(** C4. A rule whose occurrence budget is 0 expands, without fast-forward,
    to the empty sequence. *)
Theorem C4_unbounded_expands_to_nothing uuid recExp drawn today :
  RecurringExpense.Occurrences recExp = 0 ->
  generateExpensesFromRecurring uuid recExp drawn today false = [].
Proof.
  intros Hocc. unfold generateExpensesFromRecurring. by rewrite Hocc.
Qed.

Lemma C4_unbounded_witness :
  RecurringExpense.Occurrences (rule "monthly" 0) = 0
  /\ generateExpensesFromRecurring uuid0 (rule "monthly" 0) 0 noon false = [].
Proof.
  split; [reflexivity|].
  apply (C4_unbounded_expands_to_nothing uuid0 (rule "monthly" 0) 0%nat noon).
  reflexivity.
Defined.

(** C5. For a rule with a non-zero occurrence budget (a budget is a
    non-negative integer) and either value of the fast-forward flag, the
    entries one call returns and the units of the budget its fast-forward
    took together never exceed the budget; the returned sequence alone is
    at most as long as the budget. *)
Theorem C5_budget_never_exceeded uuid recExp drawn today fromToday :
  RecurringExpense.Occurrences recExp <> 0 ->
  0 <= RecurringExpense.Occurrences recExp ->
  let entries :=
    Z.of_nat (length (generateExpensesFromRecurring uuid recExp drawn today fromToday)) in
  0 <= consumed recExp today fromToday
  /\ entries + consumed recExp today fromToday <= RecurringExpense.Occurrences recExp
  /\ entries <= RecurringExpense.Occurrences recExp.
Proof.
  intros Hne Hpos. unfold generateExpensesFromRecurring, consumed. cbn zeta.
  destruct fromToday.
  - pose proof (fastForward_fuel today recExp (or_introl Hne)) as R.
    destruct (ffRun_budget _ _ _ _ _ R Hne Hpos) as (c & o & [E|E] & B); rewrite E.
    + pose proof (generate_length recExp uuid (Z.to_nat o) drawn c). lia.
    + cbn [length]. lia.
  - pose proof (generate_length recExp uuid
      (Z.to_nat (RecurringExpense.Occurrences recExp)) drawn
      (RecurringExpense.StartDate recExp)). lia.
Qed.

Lemma C5_budget_witness :
  RecurringExpense.Occurrences (rule "daily" 3) <> 0
  /\ 0 <= RecurringExpense.Occurrences (rule "daily" 3)
  /\ (let entries :=
        Z.of_nat (length (generateExpensesFromRecurring uuid0 (rule "daily" 3)
                            0 cutover true)) in
      0 <= consumed (rule "daily" 3) cutover true
      /\ entries + consumed (rule "daily" 3) cutover true <= 3
      /\ entries <= 3).
Proof.
  split; [simpl; lia|]. split; [simpl; lia|].
  apply (C5_budget_never_exceeded uuid0 (rule "daily" 3) 0%nat cutover true).
  - simpl. lia.
  - simpl. lia.
Defined.

(** C6. For a rule whose interval kind is none of daily, weekly, monthly
    and yearly, and either value of the fast-forward flag, the expansion
    ends and returns what it had built when it looked at the interval:
    nothing when that happens in the fast-forward loop, the single entry
    at the start date when it happens after the first entry was built. *)
Theorem C6_invalid_interval_truncates uuid recExp drawn today fromToday :
  validInterval (RecurringExpense.Interval recExp) = false ->
  fastForward today recExp (ffFuel today recExp)
    (RecurringExpense.StartDate recExp) (RecurringExpense.Occurrences recExp)
  <> ffOutOfFuel
  /\ generateExpensesFromRecurring uuid recExp drawn today fromToday
     = if fromToday && ffCond today recExp (RecurringExpense.StartDate recExp)
                         (RecurringExpense.Occurrences recExp)
       then []
       else if 0 <? RecurringExpense.Occurrences recExp
            then [newExpense (uuid drawn) recExp (RecurringExpense.StartDate recExp)]
            else [].
Proof.
  intros V. split; [apply fastForward_ends; right; by left|].
  assert (generate uuid recExp (Z.to_nat (RecurringExpense.Occurrences recExp))
            drawn (RecurringExpense.StartDate recExp)
          = if 0 <? RecurringExpense.Occurrences recExp
            then [newExpense (uuid drawn) recExp (RecurringExpense.StartDate recExp)]
            else []) as G.
  { rewrite generate_invalid by done.
    destruct (Z.ltb_spec 0 (RecurringExpense.Occurrences recExp)).
    - destruct (Z.to_nat _) eqn:E; [lia|done].
    - by replace (Z.to_nat _) with 0%nat by lia. }
  unfold generateExpensesFromRecurring. destruct fromToday; [|exact G].
  cbn [andb]. unfold ffFuel. cbn [fastForward].
  destruct (ffCond _ _ _ _); [by rewrite step_invalid|exact G].
Qed.

Lemma C6_invalid_interval_witness :
  validInterval (RecurringExpense.Interval (rule "hourly" 4)) = false
  /\ generateExpensesFromRecurring uuid0 (rule "hourly" 4) 7 noon false
     = [newExpense "e7" (rule "hourly" 4) (Date 2026 1 1 0 0 0 0 UTC)]
  /\ generateExpensesFromRecurring uuid0 (rule "hourly" 4) 7 noon true = [].
Proof.
  split; [reflexivity|]. split.
  - apply (C6_invalid_interval_truncates uuid0 (rule "hourly" 4) 7%nat noon false).
    reflexivity.
  - apply (C6_invalid_interval_truncates uuid0 (rule "hourly" 4) 7%nat noon true).
    reflexivity.
Defined.




(** C8. A daily rule that starts on 2026-01-01, in a location whose zone
    does not change in the four days after the start, with an occurrence
    budget of 5 expands, without fast-forward, to exactly 5 entries, 24
    hours apart from the start date on, dated 2026-01-01 to 2026-01-05 in
    that order, each with the name, category, amount, currency and tags
    of the rule and with its id as the back-reference. *)
Theorem C8_daily_five uuid recExp drawn today :
  RecurringExpense.Interval recExp = "daily"%string ->
  RecurringExpense.Occurrences recExp = 5 ->
  civilDate (RecurringExpense.StartDate recExp) = (2026, 1, 1) ->
  steadyZone (RecurringExpense.StartDate recExp) 4 ->
  let out := generateExpensesFromRecurring uuid recExp drawn today false in
  length out = 5%nat
  /\ (fun e => civilDate (Expense.Date e)) <$> out
     = [(2026, 1, 1); (2026, 1, 2); (2026, 1, 3); (2026, 1, 4); (2026, 1, 5)]
  /\ Expense.Date <$> out
     = (fun k => mkTime (unixNano (RecurringExpense.StartDate recExp) + k * nsPerDay)
                   (location (RecurringExpense.StartDate recExp)))
         <$> [0; 1; 2; 3; 4]
  /\ Forall (fun e =>
       Expense.RecurringID e = RecurringExpense.ID recExp
       /\ Expense.Name e = RecurringExpense.Name recExp
       /\ Expense.Category e = RecurringExpense.Category recExp
       /\ Expense.Amount e = RecurringExpense.Amount recExp
       /\ Expense.Currency e = RecurringExpense.Currency recExp
       /\ Expense.Tags e = RecurringExpense.Tags recExp) out.
Proof.
  intros Hi Ho Hs St. unfold generateExpensesFromRecurring. cbn zeta.
  rewrite Ho. change (Z.to_nat 5) with 5%nat.
  set (start := RecurringExpense.StartDate recExp) in *.
  set (at_ := fun k => mkTime (unixNano start + k * nsPerDay) (location start)).
  assert (forall k, 0 <= k < 4 ->
            step (RecurringExpense.Interval recExp) (at_ k) = Some (at_ (k + 1)))
    as Step.
  { intros k Hk. rewrite Hi.
    change (step "daily" (at_ k)) with (Some (AddDate 0 0 1 (at_ k))). f_equal.
    destruct (steadyZone_day k 1 start) as (_ & _ & S1); [lia..| |].
    { intros s Hs'. apply St. cbn zeta in Hs'. unfold secondsPerDay in *. lia. }
    rewrite (AddDate_steadyZone 1 (at_ k)) by (done || lia).
    unfold at_. cbn [unixNano location]. f_equal. lia. }
  assert (start = at_ 0) as E0.
  { unfold at_. destruct start as [n l]. cbn. f_equal. lia. }
  assert (forall k, 0 <= k <= 4 -> civilDate (at_ k) = civil (unixDays 2026 1 1 + k))
    as Civil.
  { intros k Hk. destruct (steadyZone_day k (4 - k) start) as (W & _); [lia..| |].
    { by replace (k + (4 - k)) with 4 by lia. }
    unfold civilDate. fold (at_ k) in W. rewrite W. f_equal.
    pose proof (civilDate_spec start) as S. rewrite Hs in S. by destruct S as [<- _]. }
  rewrite E0 at 1 2 3. cbn [generate].
  rewrite (Step 0), (Step (0 + 1)), (Step (0 + 1 + 1)), (Step (0 + 1 + 1 + 1)) by lia.
  change (0 + 1 + 1 + 1 + 1) with 4. change (0 + 1 + 1 + 1) with 3.
  change (0 + 1 + 1) with 2. change (0 + 1) with 1.
  rewrite Hi. change (step "daily" (at_ 4)) with (Some (AddDate 0 0 1 (at_ 4))).
  cbn beta iota. split; [reflexivity|]. split; [|split].
  - cbn [fmap list_fmap Expense.Date newExpense].
    rewrite !Civil by lia. reflexivity.
  - reflexivity.
  - repeat constructor.
Qed.

Lemma C8_daily_five_witness :
  RecurringExpense.Interval (rule "daily" 5) = "daily"%string
  /\ RecurringExpense.Occurrences (rule "daily" 5) = 5
  /\ civilDate (RecurringExpense.StartDate (rule "daily" 5)) = (2026, 1, 1)
  /\ steadyZone (RecurringExpense.StartDate (rule "daily" 5)) 4
  /\ (fun e => civilDate (Expense.Date e))
       <$> generateExpensesFromRecurring uuid0 (rule "daily" 5) 0 noon false
     = [(2026, 1, 1); (2026, 1, 2); (2026, 1, 3); (2026, 1, 4); (2026, 1, 5)].
Proof.
  assert (steadyZone (RecurringExpense.StartDate (rule "daily" 5)) 4) as St
    by (intros s _; reflexivity).
  split; [reflexivity|]. split; [reflexivity|]. split; [reflexivity|].
  split; [exact St|].
  apply (C8_daily_five uuid0 (rule "daily" 5) 0%nat noon); [reflexivity..|exact St].
Defined.






